(** * AI-Researcher: the secure execution boundary

    A shallow embedding of [src/utils/validators.py] and
    [src/utils/subprocess_utils.py], and the properties of the
    validators, the command executor, the git operations and the
    multi-pass LaTeX compiler.

    Layout: models of the Python library pieces the two files call
    ([str] methods, [re], [shlex], [pathlib]); then the functions of the
    two files under their own names; then the lemmas. *)

From Stdlib Require Import List NArith ZArith Bool String Ascii DecimalString Lia.
Import ListNotations.

Open Scope bool_scope.
Open Scope list_scope.

(** ** Python [str]: a sequence of Unicode code points *)

Module PyStr.
Local Open Scope N_scope.

Definition char : Type := N.
Definition str : Type := list char.

(** An ASCII literal of the source, as code points. *)
Definition lit (s : string) : str :=
  map N_of_ascii (list_ascii_of_string s).

Fixpoint eqb (a b : str) : bool :=
  match a, b with
  | [], [] => true
  | x :: a', y :: b' => N.eqb x y && eqb a' b'
  | _, _ => false
  end.

Definition is_empty (s : str) : bool :=
  match s with [] => true | _ :: _ => false end.

(** [len(s)] *)
Definition len (s : str) : Z := Z.of_nat (List.length s).

Definition between (lo hi c : char) : bool := N.leb lo c && N.leb c hi.

(** [c.isspace()]: the code points CPython treats as whitespace. *)
Definition isspace (c : char) : bool :=
  between 0x09 0x0d c || between 0x1c 0x20 c
  || N.eqb c 0x85 || N.eqb c 0xa0 || N.eqb c 0x1680
  || between 0x2000 0x200a c
  || N.eqb c 0x2028 || N.eqb c 0x2029 || N.eqb c 0x202f
  || N.eqb c 0x205f || N.eqb c 0x3000.

Fixpoint lstrip (s : str) : str :=
  match s with
  | c :: s' => if isspace c then lstrip s' else s
  | [] => []
  end.

Definition rstrip (s : str) : str := rev (lstrip (rev s)).

(** [s.strip()] *)
Definition strip (s : str) : str := rstrip (lstrip s).

(** [s.startswith(p)] *)
Fixpoint startswith (p s : str) : bool :=
  match p, s with
  | [], _ => true
  | x :: p', y :: s' => N.eqb x y && startswith p' s'
  | _ :: _, [] => false
  end.

(** [s.endswith(p)] *)
Definition endswith (p s : str) : bool := startswith (rev p) (rev s).

(** [sub in s] *)
Fixpoint contains (sub s : str) : bool :=
  startswith sub s
  || match s with
     | [] => false
     | _ :: s' => contains sub s'
     end.

(** [s.split(sep)[0]] for a non-empty [sep]: the text before the first
    occurrence of [sep], or all of [s] when there is none. *)
Fixpoint split_head (sep s : str) : str :=
  if startswith sep s then []
  else match s with
       | [] => []
       | c :: s' => c :: split_head sep s'
       end.

(** [s.lower()] on ASCII text.  [validate_url] is the only caller and
    calls it after [url_pattern] has matched, when every character of
    the string is ASCII (lemma [url_pattern_ascii]). *)
Definition lower_char (c : char) : char :=
  if between 65 90 c then (c + 32)%N else c.

Definition lower (s : str) : str := map lower_char s.

(** [sep.join(parts)] *)
Fixpoint join (sep : str) (parts : list str) : str :=
  match parts with
  | [] => []
  | [p] => p
  | p :: ps => p ++ sep ++ join sep ps
  end.

(** [s.replace(old, new)] for a one-character [old]. *)
Definition replace_char (old : char) (new : str) (s : str) : str :=
  flat_map (fun c => if N.eqb c old then new else [c]) s.

End PyStr.
Import PyStr.

(** ** Python [re]: the fragment the validators use *)

Module Re.
Local Open Scope N_scope.

(** A character class as a list of inclusive ranges. *)
Definition cls : Type := list (char * char).

Definition in_cls (cs : cls) (c : char) : bool :=
  existsb (fun r => between (fst r) (snd r) c) cs.

(** The body of a [[...]] set, read the way the [re] parser reads it:
    a backslash makes the next character a literal; [lo-hi] with an
    unescaped dash is a range, and is an error ("bad character range")
    when [hi < lo]; a dash that ends the set is a literal. *)
Fixpoint class_items (s : str) : list (bool * char) :=
  match s with
  | [] => []
  | c :: r =>
      if N.eqb c 92 then
        match r with
        | e :: r' => (true, e) :: class_items r'
        | [] => [(false, c)]
        end
      else (false, c) :: class_items r
  end.

Inductive parsed : Type :=
| Parsed (cs : cls)
| BadRange (lo hi : char).

Definition is_dash (i : bool * char) : bool :=
  negb (fst i) && N.eqb (snd i) 45.

Fixpoint class_ranges (l : list (bool * char)) : parsed :=
  match l with
  | [] => Parsed []
  | lo :: r =>
      match r with
      | d :: hi :: r' =>
          if is_dash d then
            if N.leb (snd lo) (snd hi) then
              match class_ranges r' with
              | Parsed cs => Parsed ((snd lo, snd hi) :: cs)
              | BadRange a b => BadRange a b
              end
            else BadRange (snd lo) (snd hi)
          else
            match class_ranges r with
            | Parsed cs => Parsed ((snd lo, snd lo) :: cs)
            | BadRange a b => BadRange a b
            end
      | _ =>
          match class_ranges r with
          | Parsed cs => Parsed ((snd lo, snd lo) :: cs)
          | BadRange a b => BadRange a b
          end
      end
  end.

Definition parse_class (body : str) : parsed :=
  class_ranges (class_items body).

(** Regular expressions. *)
Inductive re : Type :=
| Void
| Eps
| In (cs : cls)
| Cat (r1 r2 : re)
| Alt (r1 r2 : re)
| Star (r : re).

Definition Chr (c : char) : re := In [(c, c)].
Definition Plus (r : re) : re := Cat r (Star r).
Definition Opt (r : re) : re := Alt r Eps.
Definition Str (s : str) : re := fold_right (fun c r => Cat (Chr c) r) Eps s.

(** [$] without [re.MULTILINE]: the end of the string, or just before
    a newline that ends the string. *)
Definition Dollar : re := Opt (Chr 10).

Fixpoint nullable (r : re) : bool :=
  match r with
  | Void => false
  | Eps => true
  | In _ => false
  | Cat r1 r2 => nullable r1 && nullable r2
  | Alt r1 r2 => nullable r1 || nullable r2
  | Star _ => true
  end.

Fixpoint deriv (a : char) (r : re) : re :=
  match r with
  | Void => Void
  | Eps => Void
  | In cs => if in_cls cs a then Eps else Void
  | Cat r1 r2 =>
      if nullable r1 then Alt (Cat (deriv a r1) r2) (deriv a r2)
      else Cat (deriv a r1) r2
  | Alt r1 r2 => Alt (deriv a r1) (deriv a r2)
  | Star r1 => Cat (deriv a r1) (Star r1)
  end.

(** [re.match(p, s)] is not [None], for a pattern [^ r $] whose [$] is
    already part of [r]: the whole string is consumed. *)
Definition matches (r : re) (s : str) : bool :=
  nullable (fold_left (fun r a => deriv a r) s r).

(** [re.compile('^[' + body + ']+$')] *)
Inductive compiled : Type :=
| Pattern (r : re)
| Error (lo hi : char).   (* re.error: bad character range lo-hi *)

Definition compile_set_plus (body : str) : compiled :=
  match parse_class body with
  | Parsed cs => Pattern (Cat (Plus (In cs)) Dollar)
  | BadRange lo hi => Error lo hi
  end.

(** The language of a regular expression. *)
Inductive lang : re -> str -> Prop :=
| L_eps : lang Eps []
| L_in cs c : in_cls cs c = true -> lang (In cs) [c]
| L_cat r1 r2 s1 s2 : lang r1 s1 -> lang r2 s2 -> lang (Cat r1 r2) (s1 ++ s2)
| L_alt_l r1 r2 s : lang r1 s -> lang (Alt r1 r2) s
| L_alt_r r1 r2 s : lang r2 s -> lang (Alt r1 r2) s
| L_star_nil r : lang (Star r) []
| L_star_app r s1 s2 : lang r s1 -> lang (Star r) s2 -> lang (Star r) (s1 ++ s2).

(** [re.search(p, s)] is not [None]: some part of [s] is a word of the
    pattern. *)
Fixpoint prefix_matches (r : re) (s : str) : bool :=
  nullable r
  || match s with
     | [] => false
     | a :: s' => prefix_matches (deriv a r) s'
     end.

Fixpoint search (r : re) (s : str) : bool :=
  prefix_matches r s
  || match s with
     | [] => false
     | _ :: s' => search r s'
     end.

(** The code points an ASCII literal [c] of a pattern matches under
    [re.IGNORECASE]: the letter in both cases, and the characters whose
    case folding is that letter (dotted capital I and dotless i for
    [i], long s for [s], the Kelvin sign for [k]). *)
Definition ignorecase_set (c : char) : cls :=
  if between 97 122 c then
    [(c, c); (c - 32, c - 32)]
    ++ (if N.eqb c 105 then [(0x130, 0x131)] else [])
    ++ (if N.eqb c 115 then [(0x17f, 0x17f)] else [])
    ++ (if N.eqb c 107 then [(0x212a, 0x212a)] else [])
  else if between 65 90 c then
    [(c, c); (c + 32, c + 32)]
    ++ (if N.eqb c 73 then [(0x130, 0x131)] else [])
    ++ (if N.eqb c 83 then [(0x17f, 0x17f)] else [])
    ++ (if N.eqb c 75 then [(0x212a, 0x212a)] else [])
  else [(c, c)].

(** A literal text compiled with [re.IGNORECASE]. *)
Definition StrI (s : str) : re :=
  fold_right (fun c r => Cat (In (ignorecase_set c)) r) Eps s.

End Re.

(** ** validators.py *)

(** The messages of [ValidationError], one constructor per [raise] of
    validators.py, carrying the values its f-string interpolates. *)
Inductive reason : Type :=
| MustBeNonEmptyString (name : str)
    (* "{name} must be a non-empty string" *)
| EmptyOrWhitespaceOnly (name : str)
    (* "{name} cannot be empty or whitespace only" *)
| TooLong (name : str) (length : Z) (max_length : Z) (shown : str)
    (* "{name} too long ({len(value)} characters > {max_length} max)" *)
| InvalidCharacters (name value : str) (dash underscore slash : bool)
    (* "{name} contains invalid characters" *)
| PathTraversal (name value : str)
    (* "Path traversal detected in {name}: '{value}'" *)
| NullByte (name : str)
    (* "Null byte detected in {name}" *)
| ShellMetacharacters (name : str) (found : list char)
    (* "Shell metacharacters not allowed in {name}" *)
| OutsideBaseDirectory (name target base : str)
    (* "{name} is outside base directory" *)
| DoesNotExist (name target : str)
    (* "{name} does not exist: {target}" *)
| BranchEmpty
    (* "Branch name cannot be empty" *)
| BranchTooLong (length : Z)
    (* "Branch name too long ({len(branch)} > 255)" *)
| BranchInvalid (branch : str)
    (* "Invalid branch name: '{branch}'" *)
| BranchBadStart
    (* "Branch name cannot start with '.' or '/'" *)
| BranchEndsWithLock
    (* "Branch name cannot end with '.lock'" *)
| BranchDotDot
    (* "Branch name cannot contain '..'" *)
| UrlEmpty
    (* "URL cannot be empty" *)
| UrlInvalidFormat (url : str)
    (* "Invalid URL format: '{url}'" *)
| UrlSchemeNotAllowed (scheme : str) (allowed : list str)
    (* "URL scheme '{scheme}' not allowed" *)
| UrlLocal
    (* "Local URLs not allowed" *).

(** ** Python [pathlib]: pure POSIX paths *)

Module PurePath.
Local Open Scope N_scope.

(** [root] is empty, ["/"] or ["//"]; [parts] are the components after
    the root, with empty and ["."] components already dropped. *)
Record t : Type := mk { root : str; parts : list str }.

(** [s.split('/')] *)
Fixpoint split_slash (s : str) : list str :=
  match s with
  | [] => [[]]
  | c :: s' =>
      if N.eqb c 47 then [] :: split_slash s'
      else match split_slash s' with
           | p :: ps => (c :: p) :: ps
           | [] => [[c]]
           end
  end.

Fixpoint leading_slashes (s : str) : nat :=
  match s with
  | c :: s' => if N.eqb c 47 then S (leading_slashes s') else O
  | [] => O
  end.

Definition keep_part (p : str) : bool :=
  negb (is_empty p) && negb (PyStr.eqb p (lit ".")).

(** [PurePosixPath(s)] *)
Definition parse (s : str) : t :=
  mk (match leading_slashes s with
      | O => []
      | 2%nat => lit "//"
      | _ => lit "/"
      end)
     (filter keep_part (split_slash s)).

Definition is_absolute (p : t) : bool := negb (is_empty (root p)).

(** [a / b] for a path [a] and a path [b] *)
Definition joinpath (a b : t) : t :=
  if is_absolute b then b else mk (root a) (parts a ++ parts b).

(** [str(p)] *)
Definition to_str (p : t) : str :=
  match root p, parts p with
  | [], [] => lit "."
  | r, ps => r ++ join (lit "/") ps
  end.

(** [p.parent] *)
Definition parent (p : t) : t := mk (root p) (removelast (parts p)).

(** [p.suffix] is the text from the last dot of the last component, when
    that dot is neither its first nor its last character. *)
Fixpoint last_dot (s : str) : option str :=
  match s with
  | [] => None
  | c :: s' =>
      match last_dot s' with
      | Some r => Some r
      | None => if N.eqb c 46 then Some s else None
      end
  end.

Definition suffix (p : t) : str :=
  match rev (parts p) with
  | [] => []
  | name :: _ =>
      match name with
      | [] => []
      | _ :: tl =>
          match last_dot tl with
          | Some r => if is_empty (List.tl r) then [] else r
          | None => []
          end
      end
  end.

(** The parts the comparison of [relative_to] runs over: the root, when
    there is one, counts as the first part. *)
Definition cparts (p : t) : list str :=
  if is_absolute p then root p :: parts p else parts p.

Fixpoint parts_eqb (a b : list str) : bool :=
  match a, b with
  | [], [] => true
  | x :: a', y :: b' => PyStr.eqb x y && parts_eqb a' b'
  | _, _ => false
  end.

(** [target.relative_to(base)] does not raise [ValueError]. *)
Definition relative_to_ok (target base : t) : bool :=
  match cparts base with
  | [] => negb (is_absolute target)
  | bs => parts_eqb (firstn (List.length bs) (cparts target)) bs
  end.

(** What [resolve()] returns for an absolute path none of whose
    components is a symbolic link: [..] removes the component before it,
    and stays at the root when there is none. *)
Definition pop_dotdot (acc : list str) (p : str) : list str :=
  if PyStr.eqb p (lit "..") then removelast acc else acc ++ [p].

Definition normpath (p : t) : t :=
  mk (root p) (fold_left pop_dotdot (parts p) []).

End PurePath.

(** The part of the file system the two files read. *)
Record filesystem : Type := {
  fs_resolve : PurePath.t -> PurePath.t;      (* Path.resolve() *)
  fs_exists : PurePath.t -> bool;             (* Path.exists() *)
  fs_is_dir : PurePath.t -> bool;             (* Path.is_dir() *)
  fs_glob_bib : PurePath.t -> list PurePath.t (* Path.glob('*.bib') *)
}.

(** ** Exceptions *)

(** The messages of the [ValueError]s of subprocess_utils.py. *)
Inductive value_reason : Type :=
| CommandMustBeNonEmptyList
| TargetDirectoryExists (target_dir : str)
| NotADirectory (repo_dir : str)
| FileMustEndWithTex (tex_file : str)
| TexFileMustBeFilenameOnly (tex_file : str)
| ProjectDirectoryNotFound (project_dir : str)
| TexFileNotFound (tex_path : str)
| ScriptNotFound (script_path : str)
| FileMustBePy (script_path : str).

(** The messages of [CommandExecutionError]. *)
Inductive command_reason : Type :=
| CommandFailed (returncode : Z) (safe_cmd : str) (stderr : option str)
| CommandTimedOut (timeout : Z) (safe_cmd : str)
| UnexpectedError (e : str)
| PdflatexFailedOnRun (run : Z)
| PdfNotCreated (pdf_path : str).

Inductive exn : Type :=
| ValidationError (r : reason)
| ValueError (r : value_reason)
| CommandExecutionError (r : command_reason)
| ReError (lo hi : char)    (* re.error: bad character range lo-hi *)
| OSError (e : str).

Inductive result (A : Type) : Type :=
| Ok (a : A)
| Raise (e : exn).
Arguments Ok {A} a.
Arguments Raise {A} e.

(** ** validators.py, the functions *)

Definition dangerous_chars : list char :=
  lit ";&|`$(){}[]<>*?'" ++ [34%N; 92%N].

Definition is_dangerous (c : char) : bool :=
  existsb (N.eqb c) dangerous_chars.

Definition allowed_chars (allow_dash allow_underscore allow_slash : bool) : str :=
  lit "a-zA-Z0-9"
  ++ (if allow_underscore then lit "_" else [])
  ++ (if allow_dash then lit "-" else [])
  ++ (if allow_slash then lit "/" else []).

Definition validate_identifier (value name : str) (max_length : Z)
    (allow_dash allow_underscore allow_slash : bool) : result str :=
  if is_empty value then
    Raise (ValidationError (MustBeNonEmptyString name))
  else
    let value := strip value in
    if is_empty value then
      Raise (ValidationError (EmptyOrWhitespaceOnly name))
    else if (max_length <? len value)%Z then
      Raise (ValidationError
               (TooLong name (len value) max_length (firstn 50 value)))
    else
      match Re.compile_set_plus
              (allowed_chars allow_dash allow_underscore allow_slash) with
      | Re.Error lo hi => Raise (ReError lo hi)
      | Re.Pattern pattern =>
          if negb (Re.matches pattern value) then
            Raise (ValidationError
                     (InvalidCharacters name value
                        allow_dash allow_underscore allow_slash))
          else if contains (lit "..") value then
            Raise (ValidationError (PathTraversal name value))
          else if contains [0%N] value then
            Raise (ValidationError (NullByte name))
          else
            let found_dangerous := filter is_dangerous value in
            if negb (is_empty found_dangerous) then
              Raise (ValidationError (ShellMetacharacters name found_dangerous))
            else Ok value
      end.

Definition validate_path (fs : filesystem) (user_path base_dir : str)
    (must_exist : bool) (name : str) : result PurePath.t :=
  let base := fs_resolve fs (PurePath.parse base_dir) in
  let target :=
    if PurePath.is_absolute (PurePath.parse user_path)
    then fs_resolve fs (PurePath.parse user_path)
    else fs_resolve fs (PurePath.joinpath base (PurePath.parse user_path)) in
  if negb (PurePath.relative_to_ok target base) then
    Raise (ValidationError
             (OutsideBaseDirectory name (PurePath.to_str target)
                (PurePath.to_str base)))
  else if must_exist && negb (fs_exists fs target) then
    Raise (ValidationError (DoesNotExist name (PurePath.to_str target)))
  else Ok target.

(** The pattern [^[a-zA-Z0-9/_-]+$] of [validate_branch_name]. *)
Definition branch_pattern : Re.compiled :=
  Re.compile_set_plus (lit "a-zA-Z0-9/_-").

Definition validate_branch_name (branch : str) : result str :=
  if is_empty branch || is_empty (strip branch) then
    Raise (ValidationError BranchEmpty)
  else
    let branch := strip branch in
    if (255 <? len branch)%Z then
      Raise (ValidationError (BranchTooLong (len branch)))
    else
      match branch_pattern with
      | Re.Error lo hi => Raise (ReError lo hi)
      | Re.Pattern pattern =>
          if negb (Re.matches pattern branch) then
            Raise (ValidationError (BranchInvalid branch))
          else if startswith (lit ".") branch || startswith (lit "/") branch then
            Raise (ValidationError BranchBadStart)
          else if endswith (lit ".lock") branch then
            Raise (ValidationError BranchEndsWithLock)
          else if contains (lit "..") branch then
            Raise (ValidationError BranchDotDot)
          else Ok branch
      end.

(** The sets of [url_pattern]; both parse without error. *)
Definition set_of (body : str) : Re.cls :=
  match Re.parse_class body with
  | Re.Parsed cs => cs
  | Re.BadRange _ _ => []
  end.

Definition url_domain_set : Re.cls := set_of (lit "a-zA-Z0-9.-").

Definition url_path_set : Re.cls :=
  set_of (lit "a-zA-Z0-9._~:/?#[\]@!$&\'()*+,;=-").

(** The compiled [url_pattern]: the scheme [https?|git], then [://],
    then one or more characters of the domain set, then optionally a
    slash followed by any number of characters of the path set, then
    the end of the string. *)
Definition url_pattern : Re.re :=
  Re.Cat (Re.Alt (Re.Cat (Re.Str (lit "http")) (Re.Opt (Re.Chr 115%N)))
                 (Re.Str (lit "git")))
  (Re.Cat (Re.Str (lit "://"))
  (Re.Cat (Re.Plus (Re.In url_domain_set))
  (Re.Cat (Re.Opt (Re.Cat (Re.Chr 47%N) (Re.Star (Re.In url_path_set))))
          Re.Dollar))).

Definition mem_str (s : str) (l : list str) : bool :=
  existsb (PyStr.eqb s) l.

Definition default_allowed_schemes : list str := [lit "https"].

(** [allowed_schemes = None] selects [default_allowed_schemes]. *)
Definition validate_url (url : str) (allowed_schemes : option (list str))
    : result str :=
  let allowed_schemes :=
    match allowed_schemes with
    | None => default_allowed_schemes
    | Some l => l
    end in
  if is_empty url || is_empty (strip url) then
    Raise (ValidationError UrlEmpty)
  else
    let url := strip url in
    if negb (Re.matches url_pattern url) then
      Raise (ValidationError (UrlInvalidFormat url))
    else
      let scheme := lower (split_head (lit "://") url) in
      if negb (mem_str scheme allowed_schemes) then
        Raise (ValidationError (UrlSchemeNotAllowed scheme allowed_schemes))
      else if contains (lit "localhost") (lower url)
              || contains (lit "127.0.0.1") url then
        Raise (ValidationError UrlLocal)
      else Ok url.

(** The messages of the [ValidationError]s of [validate_model_name],
    [sanitize_latex_content] and [validate_port]. *)
Inductive more_reason : Type :=
| ModelNameEmpty
    (* "Model name cannot be empty" *)
| ModelNameTooLong (length : Z)
    (* "Model name too long ({len(model)} > 200)" *)
| ModelNameInvalid (model : str)
    (* "Invalid model name: '{model}'" *)
| DangerousLatexCommand (cmd_name : str)
    (* "Dangerous LaTeX command detected: {cmd_name}" *)
| PortOutOfRange (name : str) (port : Z)
    (* "{name} must be between 1024 and 65535 (got {port})" *).

(** What these three return: the value, or [raise ValidationError]. *)
Inductive validated (A : Type) : Type :=
| Valid (a : A)
| Invalid (r : more_reason).
Arguments Valid {A} a.
Arguments Invalid {A} r.

(** The pattern [^[a-zA-Z0-9/_.-]+$] of [validate_model_name]. *)
Definition model_pattern : Re.re :=
  Re.Cat (Re.Plus (Re.In (set_of (lit "a-zA-Z0-9/_.-")))) Re.Dollar.

Definition validate_model_name (model : str) : validated str :=
  if is_empty model || is_empty (strip model) then Invalid ModelNameEmpty
  else
    let model := strip model in
    if (200 <? len model)%Z then Invalid (ModelNameTooLong (len model))
    else if negb (Re.matches model_pattern model) then
      Invalid (ModelNameInvalid model)
    else Valid model.

(** The patterns of [sanitize_latex_content], compiled with
    [re.IGNORECASE], each with the name it is reported under. *)
Definition dangerous_patterns : list (Re.re * str) :=
  [(Re.StrI (lit "\write18"), lit "write18 (shell escape)");
   (Re.Cat (Re.StrI (lit "\input"))
      (Re.Cat (Re.Opt (Re.In (Re.ignorecase_set 123%N)))
              (Re.In (Re.ignorecase_set 124%N))),
    lit "input with pipe");
   (Re.StrI (lit "\immediate"), lit "immediate");
   (Re.StrI (lit "\openout"), lit "openout (file write)");
   (Re.StrI (lit "\openin"), lit "openin (file read)");
   (Re.StrI (lit "\special"), lit "special");
   (Re.StrI (lit "\pdfliteral"), lit "pdfliteral")].

(** [for pattern, cmd_name in patterns: if re.search(...): raise ...] *)
Fixpoint scan_patterns (patterns : list (Re.re * str)) (content : str)
    : validated str :=
  match patterns with
  | [] => Valid content
  | (pattern, cmd_name) :: patterns' =>
      if Re.search pattern content then
        Invalid (DangerousLatexCommand cmd_name)
      else scan_patterns patterns' content
  end.

Definition sanitize_latex_content (content : str) : validated str :=
  scan_patterns dangerous_patterns content.

(** [port] is an integer by its type, so only the range check can fail. *)
Definition validate_port (port : Z) (name : str) : validated Z :=
  if (port <? 1024)%Z || (65535 <? port)%Z then
    Invalid (PortOutOfRange name port)
  else Valid port.

(** ** Python [shlex] and [str(int)] *)

Module Shlex.
Local Open Scope N_scope.

(** The characters [quote] leaves alone: [\w@%+=:,./-] under [re.ASCII]. *)
Definition is_safe (c : char) : bool :=
  between 97 122 c || between 65 90 c || between 48 57 c || N.eqb c 95
  || existsb (N.eqb c) (lit "@%+=:,./-").

(** [shlex.quote(s)] *)
Definition quote (s : str) : str :=
  if is_empty s then lit "''"
  else if forallb is_safe s then s
  else lit "'" ++ replace_char 39 ([39; 34; 39; 34; 39]) s ++ lit "'".

(** [shlex.join(command)] *)
Definition join (command : list str) : str :=
  PyStr.join (lit " ") (map quote command).

End Shlex.

(** [str(n)] for an integer. *)
Definition str_of_Z (n : Z) : str := lit (NilZero.string_of_int (Z.to_int n)).

(** [f"{x}"] for an optional string: [None] prints as its name. *)
Definition str_of_option (o : option str) : str :=
  match o with
  | Some s => s
  | None => lit "None"
  end.

(** The text of a [CommandExecutionError]. *)
Definition message (r : command_reason) : str :=
  match r with
  | CommandFailed returncode safe_cmd stderr =>
      lit "Command failed with exit code " ++ str_of_Z returncode
      ++ [10%N] ++ lit "Command: " ++ safe_cmd
      ++ [10%N] ++ lit "Error: " ++ str_of_option stderr
  | CommandTimedOut timeout safe_cmd =>
      lit "Command timed out after " ++ str_of_Z timeout ++ lit "s"
      ++ [10%N] ++ lit "Command: " ++ safe_cmd
  | UnexpectedError e =>
      lit "Unexpected error: " ++ e
  | PdflatexFailedOnRun run =>
      lit "pdflatex failed on run " ++ str_of_Z run
      ++ [10%N] ++ lit "See output above for details"
  | PdfNotCreated pdf_path =>
      [10060%N] ++ lit " PDF file not created: " ++ pdf_path
      ++ [10%N] ++ lit "Check LaTeX output for errors"
  end.

(** ** The operating system, as subprocess_utils.py sees it *)

(** The keyword arguments of one [subprocess.run] call. *)
Record request : Type := {
  argv : list str;
  cwd : option PurePath.t;
  capture_output : bool;
  text : bool;
  timeout : Z;
  check : bool;
  shell : bool;
  env : option (list (str * str))
}.

(** What the child process did. *)
Inductive outcome : Type :=
| Exited (returncode : Z) (stdout stderr : option str)
| TimedOut                (* the timeout expired; the child was killed *)
| Failed (e : str).       (* any other exception, with its text *)

Record CompletedProcess : Type := {
  returncode : Z;
  stdout : option str;
  stderr : option str
}.

Inductive level : Type := INFO | WARNING | ERROR.

(** The log lines of subprocess_utils.py, one constructor per call of
    [logger], carrying the values its f-string interpolates. *)
Inductive log_msg : Type :=
| Executing (safe_cmd : str) (cwd : option PurePath.t)
| CommandCompleted (returncode : Z)
| CommandFailedLog (returncode : Z) (stderr : option str)
| CommandTimedOutLog (timeout : Z)
| UnexpectedErrorLog (e : str)
| CloningRepository (url : str)
| ClonedTo (target_dir : str)
| CheckingOutBranch (branch : str)
| CheckedOutBranch (branch : str)
| CompilingLatex (tex_file : str) (runs : Z)
| RunOf (run runs : Z)
| PdflatexFailedLog (run : Z)
| OutputLog (stdout : option str)
| RunningBibtex
| BibtexFailedContinuing
| CompilationSuccessful (pdf_path : str)
| RunningPythonScript (script_path : str).

(** What a call does to the outside: the lines it logs and the
    processes it creates, in order. *)
Inductive event : Type :=
| Log (l : level) (m : log_msg)
| Spawn (r : request) (o : outcome).

Section OperatingSystem.

Variable World : Type.

Record OS : Type := {
  os_fs : World -> filesystem;
  os_spawn : World -> request -> World * outcome;
  (* Path.mkdir(parents=True, exist_ok=True); [Some e] is an OSError *)
  os_mkdir : World -> PurePath.t -> World * option str
}.

Variable os : OS.

(** A computation reads and changes the world, emits events and returns
    or raises. *)
Definition M (A : Type) : Type := World -> World * list event * result A.

Definition ret {A} (a : A) : M A := fun w => (w, [], Ok a).

Definition raise {A} (e : exn) : M A := fun w => (w, [], Raise e).

Definition bind {A B} (m : M A) (k : A -> M B) : M B :=
  fun w =>
    match m w with
    | (w1, t1, Ok a) =>
        match k a w1 with
        | (w2, t2, r) => (w2, t1 ++ t2, r)
        end
    | (w1, t1, Raise e) => (w1, t1, Raise e)
    end.

(** [try: m except: h] with a bare [except]. *)
Definition try_except {A} (m : M A) (h : M A) : M A :=
  fun w =>
    match m w with
    | (w1, t1, Ok a) => (w1, t1, Ok a)
    | (w1, t1, Raise _) =>
        match h w1 with
        | (w2, t2, r) => (w2, t1 ++ t2, r)
        end
    end.

Definition lift {A} (r : result A) : M A := fun w => (w, [], r).

Definition log (l : level) (m : log_msg) : M unit :=
  fun w => (w, [Log l m], Ok tt).

Definition reads {A} (f : filesystem -> A) : M A :=
  fun w => (w, [], Ok (f (os_fs os w))).

Definition spawn (r : request) : M outcome :=
  fun w => let (w', o) := os_spawn os w r in (w', [Spawn r o], Ok o).

Definition mkdir_parents (p : PurePath.t) : M (option str) :=
  fun w => let (w', e) := os_mkdir os w p in (w', [], Ok e).

End OperatingSystem.

Arguments ret {World A} a.
Arguments raise {World A} e.
Arguments lift {World A} r.
Arguments log {World} l m.
Arguments bind {World A B} m k.
Arguments try_except {World A} m h.
Arguments reads {World} os {A} f.
Arguments spawn {World} os r.
Arguments mkdir_parents {World} os p.
Arguments os_fs {World} o w.
Arguments os_spawn {World} o w r.
Arguments os_mkdir {World} o w p.

Declare Scope py_scope.
Delimit Scope py_scope with py.
Notation "x <- m ;; k" := (bind m (fun x => k))
  (at level 61, m at next level, right associativity) : py_scope.
Notation "m ;; k" := (bind m (fun _ => k))
  (at level 61, right associativity) : py_scope.
Open Scope py_scope.

(** ** subprocess_utils.py, the functions *)

Section SubprocessUtils.

Variable World : Type.
Variable os : OS World.

(** [command] is a list of strings by its type, so of the two checks of
    the source only the one for the empty list can fail. *)
Definition execute_command_safe (command : list str)
    (cwd : option PurePath.t) (timeout : Z) (check : bool)
    (env : option (list (str * str))) (capture_output : bool)
    : M World CompletedProcess :=
  match command with
  | [] => raise (ValueError CommandMustBeNonEmptyList)
  | _ :: _ =>
      let safe_cmd := Shlex.join command in
      log INFO (Executing safe_cmd cwd) ;;
      o <- spawn os {| argv := command;
                       cwd := cwd;
                       capture_output := capture_output;
                       text := true;
                       timeout := timeout;
                       check := check;
                       shell := false;
                       env := env |} ;;
      match o with
      | Exited rc out err =>
          if check && negb (rc =? 0)%Z then
            log ERROR (CommandFailedLog rc err) ;;
            raise (CommandExecutionError (CommandFailed rc safe_cmd err))
          else
            log INFO (CommandCompleted rc) ;;
            ret {| returncode := rc; stdout := out; stderr := err |}
      | TimedOut =>
          log ERROR (CommandTimedOutLog timeout) ;;
          raise (CommandExecutionError (CommandTimedOut timeout safe_cmd))
      | Failed e =>
          log ERROR (UnexpectedErrorLog e) ;;
          raise (CommandExecutionError (UnexpectedError e))
      end
  end.

(** [if branch:] holds for a branch that is given and not empty. *)
Definition given (branch : option str) : bool :=
  match branch with
  | Some b => negb (is_empty b)
  | None => false
  end.

Definition git_clone_safe (url : str) (target_dir : PurePath.t)
    (branch : option str) (depth : Z) (timeout : Z) : M World unit :=
  validated_url <- lift (validate_url url (Some [lit "https"; lit "git"])) ;;
  branch <- match branch with
            | Some b =>
                if given branch then
                  b' <- lift (validate_branch_name b) ;; ret (Some b')
                else ret branch
            | None => ret None
            end ;;
  target_exists <- reads os (fun fs => fs_exists fs target_dir) ;;
  if target_exists then
    raise (ValueError (TargetDirectoryExists (PurePath.to_str target_dir)))
  else
    e <- mkdir_parents os (PurePath.parent target_dir) ;;
    match e with
    | Some e => raise (OSError e)
    | None =>
        let command :=
          [lit "git"; lit "clone"]
          ++ match branch with
             | Some b => if given branch then [lit "--branch"; b] else []
             | None => []
             end
          ++ (if (depth >? 0)%Z then [lit "--depth"; str_of_Z depth] else [])
          ++ [validated_url; PurePath.to_str target_dir] in
        log INFO (CloningRepository validated_url) ;;
        execute_command_safe command None timeout true None true ;;
        log INFO (ClonedTo (PurePath.to_str target_dir))
    end.

Definition git_checkout_safe (branch : str) (repo_dir : PurePath.t)
    (create : bool) : M World unit :=
  branch <- lift (validate_branch_name branch) ;;
  is_dir <- reads os (fun fs => fs_is_dir fs repo_dir) ;;
  if negb is_dir then
    raise (ValueError (NotADirectory (PurePath.to_str repo_dir)))
  else
    let command :=
      [lit "git"; lit "checkout"]
      ++ (if create then [lit "-b"] else [])
      ++ [branch] in
    log INFO (CheckingOutBranch branch) ;;
    execute_command_safe command (Some repo_dir) 60 true None true ;;
    log INFO (CheckedOutBranch branch).

Definition pdflatex_command (tex_file : str) : list str :=
  [lit "pdflatex"; lit "-interaction=nonstopmode"; lit "-no-shell-escape";
   lit "-halt-on-error"; tex_file].

Definition bibtex_command (base_name : str) : list str :=
  [lit "bibtex"; base_name].

(** One iteration of [for i in range(runs)]. *)
Definition latex_pass (tex_file base_name : str) (project_dir : PurePath.t)
    (timeout runs : Z) (i : nat) : M World unit :=
  log INFO (RunOf (Z.of_nat i + 1) runs) ;;
  result <- execute_command_safe (pdflatex_command tex_file)
              (Some project_dir) timeout false None true ;;
  if negb (returncode result =? 0)%Z then
    log ERROR (PdflatexFailedLog (Z.of_nat i + 1)) ;;
    log ERROR (OutputLog (stdout result)) ;;
    raise (CommandExecutionError (PdflatexFailedOnRun (Z.of_nat i + 1)))
  else if Nat.eqb i 0 then
    bib_files <- reads os (fun fs => fs_glob_bib fs project_dir) ;;
    match bib_files with
    | _ :: _ =>
        log INFO RunningBibtex ;;
        try_except
          (execute_command_safe (bibtex_command base_name)
             (Some project_dir) 30 false None true ;;
           ret tt)
          (log WARNING BibtexFailedContinuing)
    | [] => ret tt
    end
  else ret tt.

Fixpoint latex_passes (tex_file base_name : str) (project_dir : PurePath.t)
    (timeout runs : Z) (range : list nat) : M World unit :=
  match range with
  | [] => ret tt
  | i :: range' =>
      latex_pass tex_file base_name project_dir timeout runs i ;;
      latex_passes tex_file base_name project_dir timeout runs range'
  end.

(** [range(runs)] *)
Definition range (runs : Z) : list nat := seq 0 (Z.to_nat runs).

(** [tex_file[:-4]] *)
Definition drop_last4 (s : str) : str := firstn (List.length s - 4) s.

Definition compile_latex_safe (tex_file : str) (project_dir : PurePath.t)
    (timeout : Z) (runs : Z) : M World PurePath.t :=
  if negb (endswith (lit ".tex") tex_file) then
    raise (ValueError (FileMustEndWithTex tex_file))
  else if contains (lit "/") tex_file || contains [92%N] tex_file then
    raise (ValueError (TexFileMustBeFilenameOnly tex_file))
  else
    is_dir <- reads os (fun fs => fs_is_dir fs project_dir) ;;
    if negb is_dir then
      raise (ValueError (ProjectDirectoryNotFound (PurePath.to_str project_dir)))
    else
      let tex_path := PurePath.joinpath project_dir (PurePath.parse tex_file) in
      tex_exists <- reads os (fun fs => fs_exists fs tex_path) ;;
      if negb tex_exists then
        raise (ValueError (TexFileNotFound (PurePath.to_str tex_path)))
      else
        let base_name := drop_last4 tex_file in
        log INFO (CompilingLatex tex_file runs) ;;
        latex_passes tex_file base_name project_dir timeout runs (range runs) ;;
        let pdf_path :=
          PurePath.joinpath project_dir
            (PurePath.parse (base_name ++ lit ".pdf")) in
        pdf_exists <- reads os (fun fs => fs_exists fs pdf_path) ;;
        if negb pdf_exists then
          raise (CommandExecutionError (PdfNotCreated (PurePath.to_str pdf_path)))
        else
          log INFO (CompilationSuccessful (PurePath.to_str pdf_path)) ;;
          ret pdf_path.

Definition run_python_safe (script_path : PurePath.t)
    (args : option (list str)) (cwd : option PurePath.t) (timeout : Z)
    (env : option (list (str * str))) : M World CompletedProcess :=
  script_exists <- reads os (fun fs => fs_exists fs script_path) ;;
  if negb script_exists then
    raise (ValueError (ScriptNotFound (PurePath.to_str script_path)))
  else if negb (PyStr.eqb (PurePath.suffix script_path) (lit ".py")) then
    raise (ValueError (FileMustBePy (PurePath.to_str script_path)))
  else
    let command :=
      [lit "python"; PurePath.to_str script_path]
      ++ match args with Some a => a | None => [] end in
    log INFO (RunningPythonScript (PurePath.to_str script_path)) ;;
    execute_command_safe command cwd timeout true env true.

End SubprocessUtils.

Arguments execute_command_safe {World} os command cwd timeout check env
  capture_output.
Arguments git_clone_safe {World} os url target_dir branch depth timeout.
Arguments git_checkout_safe {World} os branch repo_dir create.
Arguments latex_pass {World} os tex_file base_name project_dir timeout runs i.
Arguments latex_passes {World} os tex_file base_name project_dir timeout runs
  range.
Arguments compile_latex_safe {World} os tex_file project_dir timeout runs.
Arguments run_python_safe {World} os script_path args cwd timeout env.

(** * Vocabulary of the statements *)

(** A string that does not start with whitespace. *)
Definition clean_head (s : str) : Prop :=
  match s with
  | [] => True
  | c :: _ => isspace c = false
  end.

(** The ranges of all the sets of [r]. *)
Fixpoint ranges (r : Re.re) : Re.cls :=
  match r with
  | Re.Void | Re.Eps => []
  | Re.In cs => cs
  | Re.Cat r1 r2 | Re.Alt r1 r2 => ranges r1 ++ ranges r2
  | Re.Star r1 => ranges r1
  end.

(** The characters that can occur in a word of [r]. *)
Fixpoint may_occur (r : Re.re) (c : char) : bool :=
  match r with
  | Re.Void | Re.Eps => false
  | Re.In cs => Re.in_cls cs c
  | Re.Cat r1 r2 | Re.Alt r1 r2 => may_occur r1 c || may_occur r2 c
  | Re.Star r1 => may_occur r1 c
  end.

(** [p] is [base] or lies below it: the parts of [base], its root
    included, start the parts of [p]. *)
Definition descendant (base p : PurePath.t) : Prop :=
  exists rest, PurePath.cparts p = PurePath.cparts base ++ rest.

(** No component of [p] is a symbolic link: [resolve()] only removes
    the [..] components. *)
Definition resolves_lexically (fs : filesystem) (p : PurePath.t) : Prop :=
  fs_resolve fs p = PurePath.normpath p.

Definition path_eqb (p q : PurePath.t) : bool :=
  PyStr.eqb (PurePath.root p) (PurePath.root q)
  && PurePath.parts_eqb (PurePath.parts p) (PurePath.parts q).

(** A file system without symbolic links whose current directory is the
    root, holding the files [files], the directories [dirs] and the
    bibliography databases [bibs]. *)
Definition plain_fs (files dirs bibs : list PurePath.t) : filesystem :=
  {| fs_resolve := fun p =>
       PurePath.normpath (PurePath.joinpath (PurePath.mk (lit "/") []) p);
     fs_exists := fun p => existsb (path_eqb p) (files ++ dirs);
     fs_is_dir := fun p => existsb (path_eqb p) dirs;
     fs_glob_bib := fun d =>
       filter (fun b => path_eqb (PurePath.parent b) d) bibs |}.

(** The [subprocess.run] call of one typesetting pass. *)
Definition pass_request (tex_file : str) (project_dir : PurePath.t)
    (timeout : Z) : request :=
  {| argv := pdflatex_command tex_file;
     cwd := Some project_dir;
     capture_output := true;
     text := true;
     timeout := timeout;
     check := false;
     shell := false;
     env := None |}.

(** The [subprocess.run] call of the bibliography tool. *)
Definition bibtex_request (base_name : str) (project_dir : PurePath.t)
    : request :=
  {| argv := bibtex_command base_name;
     cwd := Some project_dir;
     capture_output := true;
     text := true;
     timeout := 30;
     check := false;
     shell := false;
     env := None |}.

Definition strs_eqb (a b : list str) : bool := PurePath.parts_eqb a b.

(** The number of typesetting passes started in a trace. *)
Fixpoint passes_in (tex_file : str) (tr : list event) : nat :=
  match tr with
  | [] => 0
  | Spawn r _ :: tr' =>
      if strs_eqb (argv r) (pdflatex_command tex_file)
      then S (passes_in tex_file tr')
      else passes_in tex_file tr'
  | Log _ _ :: tr' => passes_in tex_file tr'
  end.

(** The four checks of [compile_latex_safe] before its loop. *)
Definition inputs_accepted (fs : filesystem) (tex_file : str)
    (project_dir : PurePath.t) : bool :=
  endswith (lit ".tex") tex_file
  && negb (contains (lit "/") tex_file || contains [92%N] tex_file)
  && fs_is_dir fs project_dir
  && fs_exists fs (PurePath.joinpath project_dir (PurePath.parse tex_file)).

(** The artifact [compile_latex_safe] looks for. *)
Definition pdf_path_of (tex_file : str) (project_dir : PurePath.t)
    : PurePath.t :=
  PurePath.joinpath project_dir
    (PurePath.parse (drop_last4 tex_file ++ lit ".pdf")).

(** A scripted operating system for examples: the file system is
    [plain_fs] over the listed paths, each process started takes the
    next outcome of [script] (exit code 0 with empty output once the
    script is used up), and [mkdir] records the directory. *)
Record scripted : Type := {
  script : list outcome;
  files : list PurePath.t;
  dirs : list PurePath.t;
  bibs : list PurePath.t
}.

Definition scripted_os : OS scripted :=
  {| os_fs := fun w => plain_fs (files w) (dirs w) (bibs w);
     os_spawn := fun w _ =>
       match script w with
       | o :: rest =>
           ({| script := rest; files := files w; dirs := dirs w;
               bibs := bibs w |}, o)
       | [] => (w, Exited 0 (Some []) (Some []))
       end;
     os_mkdir := fun w p =>
       ({| script := script w; files := files w; dirs := p :: dirs w;
           bibs := bibs w |}, None) |}.

(** What [execute_command_safe] logs after the bibliography tool has
    run, followed by the warning of the [except] branch when it raised. *)
Definition bibtex_tail (ob : outcome) : list event :=
  match ob with
  | Exited rc _ _ => [Log INFO (CommandCompleted rc)]
  | TimedOut =>
      [Log ERROR (CommandTimedOutLog 30); Log WARNING BibtexFailedContinuing]
  | Failed e =>
      [Log ERROR (UnexpectedErrorLog e); Log WARNING BibtexFailedContinuing]
  end.

(** The two lines logged before the process of pass [i] is created. *)
Definition pass_head (tex_file : str) (project_dir : PurePath.t) (runs : Z)
    (i : nat) : list event :=
  [Log INFO (RunOf (Z.of_nat i + 1) runs);
   Log INFO (Executing (Shlex.join (pdflatex_command tex_file))
               (Some project_dir))].

(** A project for the examples: [/papers/p] holding [main.tex]. *)
Definition example_dir : PurePath.t := PurePath.parse (lit "/papers/p").

Definition example_world (script : list outcome) (pdf bib : bool) : scripted :=
  {| script := script;
     files := PurePath.parse (lit "/papers/p/main.tex")
              :: (if pdf then [PurePath.parse (lit "/papers/p/main.pdf")]
                  else []);
     dirs := [example_dir];
     bibs := if bib then [PurePath.parse (lit "/papers/p/refs.bib")] else [] |}.

(** The characters of [[a-zA-Z0-9]]. *)
Definition is_alnum (c : char) : bool :=
  between 97%N 122%N c || between 65%N 90%N c || between 48%N 57%N c.

(** The characters [validate_identifier] lets through for given flags. *)
Definition identifier_char (allow_dash allow_underscore allow_slash : bool)
    (c : char) : bool :=
  is_alnum c
  || allow_underscore && N.eqb c 95%N
  || allow_dash && N.eqb c 45%N
  || allow_slash && N.eqb c 47%N.

(** The characters of a branch name: [[a-zA-Z0-9/_-]]. *)
Definition branch_char (c : char) : bool :=
  is_alnum c || N.eqb c 47%N || N.eqb c 95%N || N.eqb c 45%N.

(** The characters of a model name: [[a-zA-Z0-9/_.-]]. *)
Definition model_char (c : char) : bool :=
  is_alnum c || N.eqb c 47%N || N.eqb c 95%N || N.eqb c 46%N || N.eqb c 45%N.

(** [m] is [token] up to letter case, character by character. *)
Fixpoint same_ci (token m : str) : bool :=
  match token, m with
  | [], [] => true
  | t :: token', c :: m' =>
      Re.in_cls (Re.ignorecase_set t) c && same_ci token' m'
  | _, _ => false
  end.

(** The texts [sanitize_latex_content] looks for, in any letter case. *)
Definition blocked_tokens : list str :=
  [lit "\write18"; lit "\input|"; lit "\input{|"; lit "\immediate";
   lit "\openout"; lit "\openin"; lit "\special"; lit "\pdfliteral"].

(** Some blocked token occurs in [content]. *)
Definition token_occurs (content : str) : Prop :=
  exists token a m b,
    In token blocked_tokens /\ content = a ++ m ++ b
    /\ same_ci token m = true.

(** The schemes [url_pattern] admits. *)
Definition url_schemes : list str := [lit "http"; lit "https"; lit "git"].

(** The [--branch] arguments of [git_clone_safe]: none without a branch,
    the validated branch otherwise. *)
Definition clone_branch_args (branch : option str) : result (list str) :=
  match branch with
  | Some b =>
      if given branch then
        match validate_branch_name b with
        | Ok b' => Ok [lit "--branch"; b']
        | Raise e => Raise e
        end
      else Ok []
  | None => Ok []
  end.

(** The command [git_clone_safe] builds. *)
Definition clone_command (bargs : list str) (depth : Z) (u : str)
    (target_dir : PurePath.t) : list str :=
  [lit "git"; lit "clone"] ++ bargs
  ++ (if (depth >? 0)%Z then [lit "--depth"; str_of_Z depth] else [])
  ++ [u; PurePath.to_str target_dir].


(** * Properties *)

(** ** Strings *)

Lemma eqb_eq (a b : str) : PyStr.eqb a b = true <-> a = b.
Proof.
  revert b; induction a as [|x a IH]; intros [|y b]; simpl;
    try (split; congruence).
  rewrite andb_true_iff, N.eqb_eq, IH. split.
  - intros [-> ->]; reflexivity.
  - intros H; injection H; auto.
Qed.

Lemma eqb_refl (a : str) : PyStr.eqb a a = true.
Proof. apply eqb_eq; reflexivity. Qed.

(** [lstrip] removes a run of whitespace from the front. *)
Lemma lstrip_split (s : str) :
  exists w, s = w ++ lstrip s /\ forallb isspace w = true.
Proof.
  induction s as [|c s [w [E F]]]; simpl.
  - exists []; auto.
  - destruct (isspace c) eqn:Hc.
    + exists (c :: w); simpl; rewrite Hc, F; split; [congruence | reflexivity].
    + exists []; auto.
Qed.

Lemma lstrip_clean (s : str) : clean_head (lstrip s).
Proof.
  induction s as [|c s IH]; simpl; auto.
  destruct (isspace c) eqn:Hc; simpl; auto.
Qed.

Lemma lstrip_fix (s : str) : clean_head s -> lstrip s = s.
Proof. destruct s as [|c s]; simpl; auto. intros ->; reflexivity. Qed.

Lemma lstrip_spaces (s : str) : forallb isspace s = true -> lstrip s = [].
Proof.
  induction s as [|c s IH]; simpl; auto.
  rewrite andb_true_iff; intros [-> H]; auto.
Qed.

(** [rstrip] removes a run of whitespace from the back. *)
Lemma rstrip_split (s : str) :
  exists w, s = rstrip s ++ w /\ forallb isspace w = true.
Proof.
  destruct (lstrip_split (rev s)) as [w [E F]].
  exists (rev w); split.
  - unfold rstrip. rewrite <- rev_app_distr, <- E, rev_involutive; reflexivity.
  - rewrite forallb_forall in *. intros x Hx; apply F, in_rev, Hx.
Qed.

Lemma rstrip_clean_head (s : str) : clean_head s -> clean_head (rstrip s).
Proof.
  intros H. destruct (rstrip_split s) as [w [E _]].
  destruct (rstrip s) as [|c r]; simpl; auto.
  rewrite E in H; exact H.
Qed.

Lemma strip_idempotent (s : str) : strip (strip s) = strip s.
Proof.
  unfold strip at 1.
  rewrite lstrip_fix by apply rstrip_clean_head, lstrip_clean.
  unfold strip, rstrip. rewrite rev_involutive.
  rewrite (lstrip_fix (lstrip (rev (lstrip s)))) by apply lstrip_clean.
  reflexivity.
Qed.

Lemma strip_empty_iff (s : str) :
  strip s = [] <-> forallb isspace s = true.
Proof.
  split.
  - intros H. destruct (lstrip_split s) as [w1 [E1 F1]].
    destruct (rstrip_split (lstrip s)) as [w2 [E2 F2]].
    fold (strip s) in E2. rewrite H in E2; simpl in E2.
    rewrite E1, E2, forallb_app, F1, F2; reflexivity.
  - intros H. unfold strip. rewrite (lstrip_spaces _ H); reflexivity.
Qed.

(** ** Regular expressions: what matches is in the language *)

Lemma nullable_lang (r : Re.re) : Re.nullable r = true -> Re.lang r [].
Proof.
  induction r; simpl; intros H; try discriminate.
  - constructor.
  - apply andb_true_iff in H as [H1 H2].
    change (@nil char) with (@nil char ++ []). constructor; auto.
  - apply orb_true_iff in H as [H|H].
    + apply Re.L_alt_l; auto.
    + apply Re.L_alt_r; auto.
  - constructor.
Qed.

Lemma deriv_lang (a : char) (r : Re.re) (s : str) :
  Re.lang (Re.deriv a r) s -> Re.lang r (a :: s).
Proof.
  revert s; induction r; simpl; intros s H.
  - inversion H.
  - inversion H.
  - destruct (Re.in_cls cs a) eqn:E; inversion H; subst.
    constructor; exact E.
  - destruct (Re.nullable r1) eqn:N.
    + inversion H; subst.
      * match goal with
        | K : Re.lang (Re.Cat _ _) _ |- _ => inversion K; subst
        end.
        change (a :: s1 ++ s2) with ((a :: s1) ++ s2). constructor; auto.
      * change (a :: s) with ([] ++ a :: s). constructor; auto.
        apply nullable_lang; exact N.
    + inversion H; subst.
      change (a :: s1 ++ s2) with ((a :: s1) ++ s2). constructor; auto.
  - inversion H; subst.
    + apply Re.L_alt_l; auto.
    + apply Re.L_alt_r; auto.
  - inversion H; subst.
    change (a :: s1 ++ s2) with ((a :: s1) ++ s2). constructor; auto.
Qed.

Lemma matches_lang (r : Re.re) (s : str) :
  Re.matches r s = true -> Re.lang r s.
Proof.
  unfold Re.matches. revert r; induction s as [|a s IH]; simpl; intros r H.
  - apply nullable_lang; exact H.
  - apply deriv_lang, IH, H.
Qed.

Lemma lang_may_occur (r : Re.re) (s : str) :
  Re.lang r s -> forall c, In c s -> may_occur r c = true.
Proof.
  induction 1; simpl; intros x Hx.
  - contradiction.
  - destruct Hx as [<-|[]]; assumption.
  - apply in_app_or in Hx as [Hx|Hx].
    + rewrite (IHlang1 _ Hx); reflexivity.
    + rewrite (IHlang2 _ Hx); apply orb_true_r.
  - rewrite (IHlang _ Hx); reflexivity.
  - rewrite (IHlang _ Hx); apply orb_true_r.
  - contradiction.
  - apply in_app_or in Hx as [Hx|Hx]; [apply IHlang1 | apply IHlang2]; exact Hx.
Qed.

Lemma matches_may_occur (r : Re.re) (s : str) (c : char) :
  Re.matches r s = true -> In c s -> may_occur r c = true.
Proof.
  intros H Hc. eapply lang_may_occur; eauto using matches_lang.
Qed.

(** ** validate_identifier *)

Ltac split_ifs :=
  repeat match goal with
    | |- context [if ?b then _ else _] => destruct b eqn:?
    | |- context [match ?c with Re.Pattern _ => _ | Re.Error _ _ => _ end] =>
        destruct c eqn:?
    end.

Lemma strip_keeps (s : str) (c : char) :
  In c s -> isspace c = false -> In c (strip s).
Proof.
  intros Hc Hs.
  destruct (lstrip_split s) as [w1 [E1 F1]].
  destruct (rstrip_split (lstrip s)) as [w2 [E2 F2]].
  fold (strip s) in E2.
  rewrite forallb_forall in F1, F2.
  rewrite E1 in Hc. apply in_app_or in Hc as [Hc|Hc].
  - rewrite (F1 _ Hc) in Hs; discriminate.
  - rewrite E2 in Hc. apply in_app_or in Hc as [Hc|Hc]; auto.
    rewrite (F2 _ Hc) in Hs; discriminate.
Qed.

Lemma is_dangerous_In (c : char) :
  is_dangerous c = true -> In c dangerous_chars.
Proof.
  unfold is_dangerous. intros H.
  apply existsb_exists in H as [x [Hin Heq]].
  apply N.eqb_eq in Heq; subst; exact Hin.
Qed.

Lemma dangerous_not_space (c : char) :
  is_dangerous c = true -> isspace c = false.
Proof.
  intros H. apply is_dangerous_In in H.
  assert (F : forallb (fun x => negb (isspace x)) dangerous_chars = true)
    by (vm_compute; reflexivity).
  rewrite forallb_forall in F. apply negb_true_iff, F, H.
Qed.

(** No set that [validate_identifier] can compile holds a blocked
    character; neither is the newline that [$] lets through one. *)
Lemma charset_excludes_dangerous (allow_dash allow_underscore allow_slash : bool)
    (pattern : Re.re) (c : char) :
  Re.compile_set_plus (allowed_chars allow_dash allow_underscore allow_slash)
    = Re.Pattern pattern ->
  may_occur pattern c = true -> is_dangerous c = false.
Proof.
  intros H Hc.
  destruct (is_dangerous c) eqn:E; [exfalso | reflexivity].
  apply is_dangerous_In in E.
  assert (F : forallb (fun x => negb (may_occur pattern x)) dangerous_chars
              = true).
  { destruct allow_dash, allow_underscore, allow_slash;
      vm_compute in H; try discriminate H;
      injection H as <-; vm_compute; reflexivity. }
  rewrite forallb_forall in F. specialize (F _ E).
  rewrite Hc in F; discriminate.
Qed.

Lemma filter_none {A} (f : A -> bool) (l : list A) :
  (forall x, In x l -> f x = false) -> filter f l = [].
Proof.
  induction l as [|a l IH]; simpl; intros H; auto.
  rewrite (H a (or_introl eq_refl)). apply IH; auto.
Qed.

Lemma accepted_by_charset_is_clean
    (allow_dash allow_underscore allow_slash : bool)
    (pattern : Re.re) (value : str) :
  Re.compile_set_plus (allowed_chars allow_dash allow_underscore allow_slash)
    = Re.Pattern pattern ->
  Re.matches pattern value = true ->
  filter is_dangerous value = [].
Proof.
  intros H M. apply filter_none. intros c Hc.
  eapply charset_excludes_dangerous; eauto using matches_may_occur.
Qed.

(** With the three flags set the set is [a-zA-Z0-9_-/], whose [_-/] is
    read as a range from [_] down to [/]. *)
Lemma all_flags_bad_range :
  Re.compile_set_plus (allowed_chars true true true) = Re.Error 95%N 47%N.
Proof. vm_compute; reflexivity. Qed.

(** X4: So with the three flags set every value that gets as far as the
    pattern raises [re.error], a valid one such as ["vq/rotation"]
    included. *)
Lemma validate_identifier_all_flags (value name : str) (max_length : Z) :
  strip value <> [] -> (len (strip value) <= max_length)%Z ->
  validate_identifier value name max_length true true true
  = Raise (ReError 95%N 47%N).
Proof.
  intros NE Len. unfold validate_identifier. rewrite all_flags_bad_range.
  destruct value as [|c value]; [elim NE; reflexivity|]. simpl is_empty.
  cbv iota zeta.
  destruct (strip (c :: value)) as [|x s'] eqn:E; [elim NE; reflexivity|].
  simpl is_empty. cbv iota.
  apply Z.ltb_ge in Len. rewrite Len. reflexivity.
Qed.

Lemma other_flags_compile (allow_dash allow_underscore allow_slash : bool) :
  allow_dash && allow_underscore && allow_slash = false ->
  exists pattern,
    Re.compile_set_plus (allowed_chars allow_dash allow_underscore allow_slash)
    = Re.Pattern pattern.
Proof.
  destruct allow_dash, allow_underscore, allow_slash; simpl;
    try discriminate; intros _; eexists; vm_compute; reflexivity.
Qed.

(** X3: Unless all three flags are set, a value with a blocked character
    raises [ValidationError]. *)
Lemma validate_identifier_rejects_metacharacter
    (value name : str) (max_length : Z)
    (allow_dash allow_underscore allow_slash : bool) (c : char) :
  In c value -> is_dangerous c = true ->
  allow_dash && allow_underscore && allow_slash = false ->
  exists r,
    validate_identifier value name max_length
      allow_dash allow_underscore allow_slash
    = Raise (ValidationError r).
Proof.
  intros Hc Hd Hf.
  pose proof (strip_keeps value c Hc (dangerous_not_space c Hd)) as Hs.
  destruct (other_flags_compile _ _ _ Hf) as [pattern Hp].
  unfold validate_identifier. rewrite Hp.
  split_ifs; try (eexists; reflexivity).
  exfalso.
  match goal with
  | M : negb (Re.matches pattern (strip value)) = false |- _ =>
      apply negb_false_iff in M;
      pose proof (matches_may_occur _ _ c M Hs) as Ho
  end.
  rewrite (charset_excludes_dangerous _ _ _ _ c Hp Ho) in Hd; discriminate.
Qed.

(** C2, at the input where the code departs from it:
    [validate_identifier("a;b", "field", allow_slash=True)], with the
    other two flags at their defaults, holds the blocked character [;]
    and raises [re.error] (bad character range [_-/]), which is not a
    [ValidationError]. *)
Theorem validate_identifier_all_flags_raises_re_error :
  In 59%N (lit "a;b") /\ is_dangerous 59%N = true /\
  validate_identifier (lit "a;b") (lit "field") 50 true true true
  = Raise (ReError 95%N 47%N).
Proof. repeat split; vm_compute; auto. Qed.

(** C9: the metacharacter check of [validate_identifier] never fires.
    Whatever the flags, a string the charset pattern matches holds no
    blocked character, so the list [found_dangerous] is empty; and no
    call of [validate_identifier] ends in the "Shell metacharacters not
    allowed" error. *)
Theorem shell_metacharacter_veto_redundant :
  (forall allow_dash allow_underscore allow_slash pattern value,
      Re.compile_set_plus
        (allowed_chars allow_dash allow_underscore allow_slash)
      = Re.Pattern pattern ->
      Re.matches pattern value = true ->
      forall c, In c value -> is_dangerous c = false)
  /\
  (forall value name max_length allow_dash allow_underscore allow_slash
          name' found,
      validate_identifier value name max_length
        allow_dash allow_underscore allow_slash
      <> Raise (ValidationError (ShellMetacharacters name' found))).
Proof.
  split.
  - intros d u s pattern value H M c Hc.
    eapply charset_excludes_dangerous; eauto using matches_may_occur.
  - intros value name max_length d u s name' found.
    unfold validate_identifier. split_ifs; try discriminate.
    exfalso.
    match goal with
    | M : negb (Re.matches _ _) = false, P : Re.compile_set_plus _ = _ |- _ =>
        apply negb_false_iff in M;
        pose proof (accepted_by_charset_is_clean _ _ _ _ _ P M) as F
    end.
    match goal with
    | E : negb (is_empty (filter _ _)) = true |- _ => rewrite F in E
    end.
    discriminate.
Qed.

Lemma shell_metacharacter_veto_redundant_witness :
  In 45%N (lit "research-field_1") /\ is_dangerous 45%N = false.
Proof.
  assert (Hin : In 45%N (lit "research-field_1")) by (vm_compute; auto 10).
  split; [exact Hin|].
  apply (proj1 shell_metacharacter_veto_redundant true true false
           (Re.Cat (Re.Plus (Re.In (set_of (lit "a-zA-Z0-9_-")))) Re.Dollar)
           (lit "research-field_1")).
  - vm_compute; reflexivity.
  - vm_compute; reflexivity.
  - exact Hin.
Defined.

(** C10: [validate_identifier] and [validate_branch_name] return the
    stripped input.  A result is always [strip] of the input; an input
    whose stripped form is accepted is accepted too, with that stripped
    form as the result (so [" vq "] gives ["vq"]); and the emptiness
    errors are raised exactly for inputs that are empty or all
    whitespace. *)
Theorem validators_return_stripped_input :
  (forall value name max_length allow_dash allow_underscore allow_slash r,
      validate_identifier value name max_length
        allow_dash allow_underscore allow_slash = Ok r ->
      r = strip value)
  /\ (forall branch r, validate_branch_name branch = Ok r -> r = strip branch)
  /\ (forall value name max_length allow_dash allow_underscore allow_slash r,
      validate_identifier (strip value) name max_length
        allow_dash allow_underscore allow_slash = Ok r ->
      validate_identifier value name max_length
        allow_dash allow_underscore allow_slash = Ok r)
  /\ (forall branch r,
      validate_branch_name (strip branch) = Ok r ->
      validate_branch_name branch = Ok r)
  /\ (validate_identifier (lit " vq ") (lit "research_field") 50
        true true false = Ok (lit "vq")
      /\ validate_branch_name (lit " main ") = Ok (lit "main")
      /\ lit "vq" <> lit " vq " /\ lit "main" <> lit " main ")
  /\ (forall value name max_length allow_dash allow_underscore allow_slash,
      (validate_identifier value name max_length
         allow_dash allow_underscore allow_slash
       = Raise (ValidationError (MustBeNonEmptyString name))
       \/ validate_identifier value name max_length
            allow_dash allow_underscore allow_slash
          = Raise (ValidationError (EmptyOrWhitespaceOnly name)))
      <-> forallb isspace value = true)
  /\ (forall branch,
      validate_branch_name branch = Raise (ValidationError BranchEmpty)
      <-> forallb isspace branch = true).
Proof.
  split; [|split; [|split; [|split; [|split; [|split]]]]].
  - intros value name max_length d u s r.
    unfold validate_identifier. split_ifs; try discriminate.
    intros H; injection H as <-; reflexivity.
  - intros branch r.
    unfold validate_branch_name. split_ifs; try discriminate.
    intros H; injection H as <-; reflexivity.
  - intros value name max_length d u s r.
    unfold validate_identifier. cbv zeta. rewrite strip_idempotent.
    destruct (is_empty (strip value)) eqn:E; [discriminate|].
    destruct value as [|c value]; [discriminate E|]. simpl is_empty.
    cbv iota. rewrite ?E. auto.
  - intros branch r.
    unfold validate_branch_name. cbv zeta. rewrite strip_idempotent.
    destruct (is_empty (strip branch)) eqn:E;
      [rewrite orb_true_r; discriminate|].
    destruct branch as [|c branch]; [discriminate E|]. simpl is_empty.
    rewrite ?E. auto.
  - repeat split; try (vm_compute; reflexivity); discriminate.
  - intros value name max_length d u s. rewrite <- strip_empty_iff.
    unfold validate_identifier. cbv zeta. split.
    + destruct value as [|c value]; [reflexivity|]. simpl is_empty. cbv iota.
      destruct (strip (c :: value)) eqn:E; [reflexivity|]. simpl is_empty.
      cbv iota. split_ifs; intros [H|H]; discriminate H.
    + intros E. destruct value as [|c value]; [left; reflexivity|].
      right. simpl is_empty. cbv iota. rewrite E. reflexivity.
  - intros branch. rewrite <- strip_empty_iff.
    unfold validate_branch_name. cbv zeta. split.
    + destruct (strip branch) as [|x b'] eqn:E; [reflexivity|].
      destruct branch as [|c branch]; [discriminate E|]. simpl is_empty.
      simpl orb. cbv iota. split_ifs; intros H; discriminate H.
    + intros E. rewrite E. rewrite orb_true_r. reflexivity.
Qed.

Lemma validators_return_stripped_input_witness :
  validate_identifier (lit " vq/a ") (lit "f") 50 true false true
  = Ok (lit "vq/a")
  /\ lit "vq/a" = strip (lit " vq/a ").
Proof.
  assert (H : validate_identifier (lit " vq/a ") (lit "f") 50 true false true
              = Ok (lit "vq/a")) by (vm_compute; reflexivity).
  split; [exact H|].
  exact (proj1 validators_return_stripped_input _ _ _ _ _ _ _ H).
Defined.

(** ** validate_url *)

Lemma may_occur_ranges (r : Re.re) (c : char) :
  may_occur r c = Re.in_cls (ranges r) c.
Proof.
  unfold Re.in_cls.
  induction r; simpl; auto; rewrite ?existsb_app; congruence.
Qed.

Lemma in_cls_below (cs : Re.cls) (c n : char) :
  forallb (fun r => N.ltb (snd r) n) cs = true ->
  Re.in_cls cs c = true -> (c < n)%N.
Proof.
  unfold Re.in_cls. intros F H.
  apply existsb_exists in H as [[lo hi] [Hin Hb]].
  rewrite forallb_forall in F. specialize (F _ Hin). simpl in *.
  unfold between in Hb. apply andb_true_iff in Hb as [_ Hb].
  apply N.leb_le in Hb. apply N.ltb_lt in F. lia.
Qed.

(** A string that [url_pattern] matches is ASCII, so [lower] is
    [str.lower] on it. *)
Lemma url_pattern_ascii (url : str) :
  Re.matches url_pattern url = true ->
  forall c, In c url -> (c < 128)%N.
Proof.
  intros M c Hc.
  pose proof (matches_may_occur _ _ c M Hc) as H.
  rewrite may_occur_ranges in H.
  eapply in_cls_below; [|exact H]. vm_compute; reflexivity.
Qed.

(** The scheme check can fire: plain http passes the pattern and is not
    in the default list. *)
Lemma validate_url_http_scheme_not_allowed :
  validate_url (lit "http://github.com/a/b") None
  = Raise (ValidationError
             (UrlSchemeNotAllowed (lit "http") default_allowed_schemes)).
Proof. vm_compute; reflexivity. Qed.

(** C8, on the three inputs of the claim.  The first is accepted and the
    third is rejected as a local URL, as claimed.  The second,
    ["file:///etc/passwd"], is rejected by the pattern check, with
    "Invalid URL format", before the scheme list is looked at; the
    docstring of [validate_url] announces "URL scheme not allowed" for
    it. *)
Theorem validate_url_examples :
  validate_url (lit "https://github.com/a/b") None
  = Ok (lit "https://github.com/a/b")
  /\ validate_url (lit "file:///etc/passwd") None
     = Raise (ValidationError (UrlInvalidFormat (lit "file:///etc/passwd")))
  /\ validate_url (lit "https://127.0.0.1/x") None
     = Raise (ValidationError UrlLocal).
Proof. repeat split; vm_compute; reflexivity. Qed.

(** ** validate_path *)

Lemma parts_eqb_eq (a b : list str) : PurePath.parts_eqb a b = true <-> a = b.
Proof.
  revert b; induction a as [|x a IH]; intros [|y b]; simpl;
    try (split; congruence).
  rewrite andb_true_iff, eqb_eq, IH. split.
  - intros [-> ->]; reflexivity.
  - intros H; injection H; auto.
Qed.

Lemma firstn_prefix {A} (a b rest : list A) :
  b = a ++ rest -> firstn (List.length a) b = a.
Proof.
  intros ->. rewrite firstn_app, Nat.sub_diag, firstn_all. simpl.
  apply app_nil_r.
Qed.

(** What [relative_to] accepts is a descendant. *)
Lemma relative_to_ok_descendant (target base : PurePath.t) :
  PurePath.relative_to_ok target base = true -> descendant base target.
Proof.
  unfold PurePath.relative_to_ok, descendant.
  destruct (PurePath.cparts base) as [|b bs] eqn:E; intros H.
  - exists (PurePath.cparts target); reflexivity.
  - apply parts_eqb_eq in H.
    exists (skipn (List.length (b :: bs)) (PurePath.cparts target)).
    pose proof (firstn_skipn (List.length (b :: bs)) (PurePath.cparts target))
      as S.
    rewrite H in S. symmetry; exact S.
Qed.

(** For an absolute base, as [resolve()] returns, [relative_to] accepts
    exactly the descendants. *)
Lemma descendant_relative_to_ok (target base : PurePath.t) :
  PurePath.is_absolute base = true ->
  descendant base target -> PurePath.relative_to_ok target base = true.
Proof.
  unfold PurePath.relative_to_ok, descendant. intros A [rest H].
  destruct (PurePath.cparts base) as [|b bs] eqn:E.
  - unfold PurePath.cparts in E. rewrite A in E; discriminate.
  - apply parts_eqb_eq. eapply firstn_prefix; eassumption.
Qed.

(** C7: [validate_path] resolves the base, resolves a relative user
    path against the resolved base, and raises "outside base directory"
    whenever the resolved target is not a descendant of the resolved
    base; a path it returns is the resolved target and is a descendant.
    Inside the base, [must_exist] with an absent target raises "does
    not exist".  On a file system where the paths involved hold no
    symbolic link, ["../../../etc/passwd"] under ["/app"] is rejected as
    outside and ["papers/vq"] under ["/app"] gives [/app/papers/vq]. *)
Theorem validate_path_confines_to_base :
  (forall fs user_path base_dir must_exist name,
      let base := fs_resolve fs (PurePath.parse base_dir) in
      let target :=
        if PurePath.is_absolute (PurePath.parse user_path)
        then fs_resolve fs (PurePath.parse user_path)
        else fs_resolve fs (PurePath.joinpath base (PurePath.parse user_path)) in
      (~ descendant base target ->
       validate_path fs user_path base_dir must_exist name
       = Raise (ValidationError
                  (OutsideBaseDirectory name (PurePath.to_str target)
                     (PurePath.to_str base))))
      /\ (forall p,
             validate_path fs user_path base_dir must_exist name = Ok p ->
             p = target /\ descendant base p)
      /\ (PurePath.is_absolute base = true -> descendant base target ->
          must_exist = true -> fs_exists fs target = false ->
          validate_path fs user_path base_dir must_exist name
          = Raise (ValidationError (DoesNotExist name (PurePath.to_str target)))))
  /\ (forall fs must_exist name,
      resolves_lexically fs (PurePath.parse (lit "/app")) ->
      resolves_lexically fs
        (PurePath.joinpath (PurePath.parse (lit "/app"))
           (PurePath.parse (lit "../../../etc/passwd"))) ->
      validate_path fs (lit "../../../etc/passwd") (lit "/app") must_exist name
      = Raise (ValidationError
                 (OutsideBaseDirectory name (lit "/etc/passwd") (lit "/app"))))
  /\ (forall fs name,
      resolves_lexically fs (PurePath.parse (lit "/app")) ->
      resolves_lexically fs
        (PurePath.joinpath (PurePath.parse (lit "/app"))
           (PurePath.parse (lit "papers/vq"))) ->
      validate_path fs (lit "papers/vq") (lit "/app") false name
      = Ok (PurePath.parse (lit "/app/papers/vq"))
      /\ PurePath.to_str (PurePath.parse (lit "/app/papers/vq"))
         = lit "/app/papers/vq").
Proof.
  split; [|split].
  - intros fs user_path base_dir must_exist name base target.
    unfold validate_path. fold base. fold target. cbv zeta.
    split; [|split].
    + intros H.
      destruct (PurePath.relative_to_ok target base) eqn:E.
      * elim H. apply relative_to_ok_descendant, E.
      * reflexivity.
    + intros p.
      destruct (PurePath.relative_to_ok target base) eqn:E; simpl;
        [|discriminate].
      destruct (must_exist && negb (fs_exists fs target)); [discriminate|].
      intros H; injection H as <-. split; [reflexivity|].
      apply relative_to_ok_descendant, E.
    + intros A D -> X.
      rewrite (descendant_relative_to_ok _ _ A D), X. reflexivity.
  - intros fs must_exist name Hb Ht.
    unfold validate_path. unfold resolves_lexically in *.
    rewrite Hb. change (PurePath.normpath (PurePath.parse (lit "/app")))
      with (PurePath.parse (lit "/app")).
    change (PurePath.is_absolute (PurePath.parse (lit "../../../etc/passwd")))
      with false.
    cbv iota. rewrite Ht. vm_compute. reflexivity.
  - intros fs name Hb Ht.
    unfold validate_path. unfold resolves_lexically in *.
    rewrite Hb. change (PurePath.normpath (PurePath.parse (lit "/app")))
      with (PurePath.parse (lit "/app")).
    change (PurePath.is_absolute (PurePath.parse (lit "papers/vq")))
      with false.
    cbv iota. rewrite Ht. vm_compute. split; reflexivity.
Qed.

Lemma validate_path_confines_to_base_witness :
  validate_path (plain_fs [] [] []) (lit "../../../etc/passwd") (lit "/app")
    true (lit "path")
  = Raise (ValidationError
             (OutsideBaseDirectory (lit "path") (lit "/etc/passwd")
                (lit "/app")))
  /\ validate_path (plain_fs [] [] []) (lit "papers/vq") (lit "/app")
       false (lit "path")
     = Ok (PurePath.parse (lit "/app/papers/vq")).
Proof.
  split.
  - apply (proj1 (proj2 validate_path_confines_to_base));
      vm_compute; reflexivity.
  - apply (proj2 (proj2 validate_path_confines_to_base) (plain_fs [] [] []));
      vm_compute; reflexivity.
Defined.

(** ** execute_command_safe *)

Section Execution.

Variable World : Type.
Variable os : OS World.

(** C1: [execute_command_safe] hands the argument vector itself to
    process creation, with the shell off.  An empty vector starts
    nothing.  Otherwise the call logs the joined form, then creates
    exactly one process, whose argument vector is [command] as given and
    whose [shell] flag is false, then logs the outcome: the joined form
    [Shlex.join command] goes to the log, and no process is created from
    it. *)
Theorem execute_command_safe_uses_argv
    (command : list str) (cwd : option PurePath.t) (timeout : Z)
    (check : bool) (env : option (list (str * str))) (capture_output : bool)
    (w : World) :
  let req := {| argv := command; cwd := cwd;
                capture_output := capture_output; text := true;
                timeout := timeout; check := check; shell := false;
                env := env |} in
  let run :=
    execute_command_safe os command cwd timeout check env capture_output w in
  match command with
  | [] => run = (w, [], Raise (ValueError CommandMustBeNonEmptyList))
  | _ :: _ =>
      exists l m res,
        run = (fst (os_spawn os w req),
               [Log INFO (Executing (Shlex.join command) cwd);
                Spawn req (snd (os_spawn os w req));
                Log l m],
               res)
  end
  /\ forall r o, In (Spawn r o) (snd (fst run)) ->
                 r = req /\ argv r = command /\ shell r = false.
Proof.
  intros req run.
  assert (Shape :
    match command with
    | [] => run = (w, [], Raise (ValueError CommandMustBeNonEmptyList))
    | _ :: _ =>
        exists l m res,
          run = (fst (os_spawn os w req),
                 [Log INFO (Executing (Shlex.join command) cwd);
                  Spawn req (snd (os_spawn os w req));
                  Log l m],
                 res)
    end).
  { subst run. destruct command as [|c cs]; [reflexivity|].
    unfold execute_command_safe, bind, spawn, log, raise, ret. fold req.
    destruct (os_spawn os w req) as [w1 o]. simpl.
    destruct o as [rc out err| |e]; simpl.
    - destruct (check && negb (rc =? 0)%Z); simpl; eauto.
    - eauto.
    - eauto. }
  split; [exact Shape|].
  intros r o Hin. destruct command as [|c cs].
  - rewrite Shape in Hin. contradiction.
  - destruct Shape as [l [m [res E]]]. rewrite E in Hin. simpl in Hin.
    destruct Hin as [H|[H|[H|[]]]]; try discriminate H.
    injection H as <- _. auto.
Qed.

End Execution.

Lemma execute_command_safe_uses_argv_witness :
  let command := [lit "echo"; lit "hi; rm -rf /"] in
  let w := {| script := []; files := []; dirs := []; bibs := [] |} in
  let r := {| argv := command; cwd := None; capture_output := true;
              text := true; timeout := 60; check := true; shell := false;
              env := None |} in
  let o := Exited 0 (Some []) (Some []) in
  In (Spawn r o)
     (snd (fst (execute_command_safe scripted_os command None 60 true None
                  true w)))
  /\ argv r = command /\ shell r = false.
Proof.
  intros command w r o.
  assert (H : In (Spawn r o)
                (snd (fst (execute_command_safe scripted_os command None 60
                             true None true w))))
    by (vm_compute; auto).
  split; [exact H|].
  exact (proj2 (proj2 (execute_command_safe_uses_argv _ scripted_os
                         command None 60 true None true w) r o H)).
Defined.

(** ** git_clone_safe *)

Lemma validate_url_raises (url : str) (allowed : option (list str)) (e : exn) :
  validate_url url allowed = Raise e -> exists r, e = ValidationError r.
Proof.
  unfold validate_url. split_ifs; intros H; try discriminate H;
    injection H as <-; eexists; reflexivity.
Qed.

Lemma branch_pattern_compiles : exists p, branch_pattern = Re.Pattern p.
Proof. eexists; vm_compute; reflexivity. Qed.

Lemma validate_branch_name_raises (branch : str) (e : exn) :
  validate_branch_name branch = Raise e -> exists r, e = ValidationError r.
Proof.
  unfold validate_branch_name.
  destruct branch_pattern_compiles as [p ->].
  split_ifs; intros H; try discriminate H;
    injection H as <-; eexists; reflexivity.
Qed.

Section Clone.

Variable World : Type.
Variable os : OS World.

(** C6: when [target_dir] exists, [git_clone_safe] raises without
    touching anything: the world is unchanged (no [mkdir]), and nothing
    is logged or spawned.  The error is "Target directory already
    exists", unless the URL or the branch was rejected first. *)
Theorem git_clone_safe_existing_target
    (url : str) (target_dir : PurePath.t) (branch : option str)
    (depth timeout : Z) (w : World) :
  fs_exists (os_fs os w) target_dir = true ->
  exists e,
    git_clone_safe os url target_dir branch depth timeout w = (w, [], Raise e)
    /\ (e = ValueError (TargetDirectoryExists (PurePath.to_str target_dir))
        \/ exists r, e = ValidationError r).
Proof.
  intros X. unfold git_clone_safe, bind, lift, reads, raise, ret.
  destruct (validate_url url (Some [lit "https"; lit "git"])) as [u|e] eqn:U.
  - destruct branch as [b|].
    + destruct (given (Some b)).
      * destruct (validate_branch_name b) as [b'|e] eqn:B.
        -- simpl. rewrite X. eexists; split; [reflexivity|auto].
        -- exists e; split; [reflexivity|].
           right. eapply validate_branch_name_raises; eauto.
      * simpl. rewrite X. eexists; split; [reflexivity|auto].
    + simpl. rewrite X. eexists; split; [reflexivity|auto].
  - exists e; split; [reflexivity|].
    right. eapply validate_url_raises; eauto.
Qed.

End Clone.

Lemma git_clone_safe_existing_target_witness :
  let target := PurePath.parse (lit "/tmp/test-clone") in
  let w := {| script := []; files := []; dirs := [target]; bibs := [] |} in
  exists e,
    git_clone_safe scripted_os (lit "https://github.com/torvalds/linux.git")
      target (Some (lit "master")) 1 300 w
    = (w, [], Raise e)
    /\ (e = ValueError (TargetDirectoryExists (PurePath.to_str target))
        \/ exists r, e = ValidationError r).
Proof.
  intros target w.
  apply (git_clone_safe_existing_target _ scripted_os).
  vm_compute; reflexivity.
Defined.

(** ** compile_latex_safe *)

Lemma strs_eqb_refl (a : list str) : strs_eqb a a = true.
Proof. apply parts_eqb_eq; reflexivity. Qed.

Lemma passes_in_app (tex_file : str) (a b : list event) :
  passes_in tex_file (a ++ b) = passes_in tex_file a + passes_in tex_file b.
Proof.
  induction a as [|[l m|r o] a IH]; simpl; auto.
  destruct (strs_eqb (argv r) (pdflatex_command tex_file)); simpl; auto.
Qed.

Lemma passes_in_pass (tex_file : str) (project_dir : PurePath.t) (timeout : Z)
    (o : outcome) (tr : list event) :
  passes_in tex_file (Spawn (pass_request tex_file project_dir timeout) o :: tr)
  = S (passes_in tex_file tr).
Proof.
  change (passes_in tex_file
            (Spawn (pass_request tex_file project_dir timeout) o :: tr))
    with (if strs_eqb (pdflatex_command tex_file) (pdflatex_command tex_file)
          then S (passes_in tex_file tr) else passes_in tex_file tr).
  rewrite strs_eqb_refl; reflexivity.
Qed.

Lemma passes_in_bibtex (tex_file base_name : str) (project_dir : PurePath.t)
    (o : outcome) (tr : list event) :
  passes_in tex_file (Spawn (bibtex_request base_name project_dir) o :: tr)
  = passes_in tex_file tr.
Proof. reflexivity. Qed.

Lemma passes_in_log (tex_file : str) (l : level) (m : log_msg)
    (tr : list event) :
  passes_in tex_file (Log l m :: tr) = passes_in tex_file tr.
Proof. reflexivity. Qed.

Section Compile.

Variable World : Type.
Variable os : OS World.
Variables tex_file base_name : str.
Variable project_dir : PurePath.t.
Variables timeout runs : Z.

Local Abbreviation preq := (pass_request tex_file project_dir timeout).
Local Abbreviation breq := (bibtex_request base_name project_dir).
Local Abbreviation pass_head := (pass_head tex_file project_dir runs).
Local Abbreviation passes := (latex_passes os tex_file base_name project_dir
                            timeout runs).

(** One iteration of the loop, every branch written out. *)
Lemma latex_pass_run (i : nat) (w : World) :
  latex_pass os tex_file base_name project_dir timeout runs i w =
  let w1 := fst (os_spawn os w preq) in
  match snd (os_spawn os w preq) with
  | Exited rc out err =>
      if (rc =? 0)%Z then
        match i, fs_glob_bib (os_fs os w1) project_dir with
        | O, _ :: _ =>
            let ob := snd (os_spawn os w1 breq) in
            (fst (os_spawn os w1 breq),
             pass_head i
             ++ [Spawn preq (Exited rc out err);
                 Log INFO (CommandCompleted rc);
                 Log INFO RunningBibtex;
                 Log INFO (Executing (Shlex.join (bibtex_command base_name))
                             (Some project_dir));
                 Spawn breq ob]
             ++ bibtex_tail ob,
             Ok tt)
        | _, _ =>
            (w1,
             pass_head i
             ++ [Spawn preq (Exited rc out err);
                 Log INFO (CommandCompleted rc)],
             Ok tt)
        end
      else
        (w1,
         pass_head i
         ++ [Spawn preq (Exited rc out err);
             Log INFO (CommandCompleted rc);
             Log ERROR (PdflatexFailedLog (Z.of_nat i + 1));
             Log ERROR (OutputLog out)],
         Raise (CommandExecutionError (PdflatexFailedOnRun (Z.of_nat i + 1))))
  | TimedOut =>
      (w1,
       pass_head i
       ++ [Spawn preq TimedOut; Log ERROR (CommandTimedOutLog timeout)],
       Raise (CommandExecutionError
                (CommandTimedOut timeout
                   (Shlex.join (pdflatex_command tex_file)))))
  | Failed e =>
      (w1,
       pass_head i
       ++ [Spawn preq (Failed e); Log ERROR (UnexpectedErrorLog e)],
       Raise (CommandExecutionError (UnexpectedError e)))
  end.
Proof.
  unfold latex_pass, execute_command_safe, pdflatex_command, bibtex_command,
    try_except, bind, spawn, log, reads, raise, ret.
  fold (pdflatex_command tex_file). fold (bibtex_command base_name).
  fold (pass_request tex_file project_dir timeout).
  destruct (os_spawn os w preq) as [w1 o]. simpl fst. simpl snd. cbv zeta.
  destruct o as [rc out err| |e]; simpl; try reflexivity.
  destruct (rc =? 0)%Z eqn:R; simpl; try reflexivity.
  destruct i; simpl; try reflexivity.
  destruct (fs_glob_bib (os_fs os w1) project_dir); simpl; try reflexivity.
  fold (bibtex_request base_name project_dir).
  destruct (os_spawn os w1 breq) as [w2 ob]. simpl.
  destruct ob; reflexivity.
Qed.

Ltac peel H pre :=
  repeat match type of H with
    | (_ :: _) = pre ++ _ :: _ =>
        destruct pre as [|? pre]; simpl in H; [|injection H as <- H]
    end.

Ltac run_pass w :=
  simpl latex_passes; unfold bind; rewrite latex_pass_run; cbv zeta;
  destruct (os_spawn os w preq) as [?w ?o]; simpl fst; simpl snd.

(** A pass that exits non-zero ends the loop: what follows its process
    in the trace is the completion line and the two error lines, the
    second carrying its stdout, and the loop raises for that run. *)
Lemma latex_passes_failed_pass (todo : list nat) :
  forall w w' tr res,
    passes todo w = (w', tr, res) ->
    forall pre r rc out err post,
      tr = pre ++ Spawn r (Exited rc out err) :: post ->
      argv r = pdflatex_command tex_file -> rc <> 0%Z ->
      exists i,
        nth_error todo (passes_in tex_file pre) = Some i
        /\ post = [Log INFO (CommandCompleted rc);
                   Log ERROR (PdflatexFailedLog (Z.of_nat i + 1));
                   Log ERROR (OutputLog out)]
        /\ res = Raise (CommandExecutionError
                          (PdflatexFailedOnRun (Z.of_nat i + 1))).
Proof.
  induction todo as [|i todo IH]; intros w w' tr res E pre r rc out err post
    T A NZ.
  - injection E as _ <- _. destruct pre; discriminate T.
  - revert E. run_pass w.
    destruct o as [rc1 out1 err1| |e1].
    + destruct (rc1 =? 0)%Z eqn:R.
      * apply Z.eqb_eq in R; subst rc1.
        destruct i as [|i];
          [destruct (fs_glob_bib (os_fs os w0) project_dir) as [|b bs]|].
        all: match goal with
             | |- context [latex_passes _ _ _ _ _ _ _ ?w1] =>
                 destruct (passes todo w1) as [[w2 t2] r2] eqn:P
             end.
        all: intros E; injection E as <- <- <-.
        all: simpl in T.
        all: try (destruct (snd (os_spawn os w0 breq)); simpl in T).
        all: peel T pre; try discriminate T.
        all: try (exfalso; inversion T; subst;
                  first [congruence | discriminate A]; fail).
        all: destruct (IH _ _ _ _ P _ _ _ _ _ _ T A NZ) as [j [N [Q S]]].
        all: exists j; repeat split; auto.
        all: rewrite ?passes_in_log, ?passes_in_pass, ?passes_in_bibtex,
               ?passes_in_log; simpl; auto.
      * intros E; injection E as <- <- <-.
        simpl in T. peel T pre; try discriminate T.
        -- injection T as _ -> -> _ <-.
           exists i; repeat split; reflexivity.
        -- destruct pre; discriminate T.
    + intros E; injection E as <- <- <-.
      simpl in T. peel T pre; try discriminate T.
      destruct pre; discriminate T.
    + intros E; injection E as <- <- <-.
      simpl in T. peel T pre; try discriminate T.
      destruct pre; discriminate T.
Qed.

(** When every pass exits with code 0 the loop runs all its passes and
    returns, whatever the bibliography tool did. *)
Lemma latex_passes_all_ok (todo : list nat) :
  forall w w' tr res,
    passes todo w = (w', tr, res) ->
    (forall r o, In (Spawn r o) tr -> argv r = pdflatex_command tex_file ->
                 exists out err, o = Exited 0 out err) ->
    res = Ok tt /\ passes_in tex_file tr = List.length todo.
Proof.
  induction todo as [|i todo IH]; intros w w' tr res E H.
  - injection E as _ <- <-. auto.
  - revert E. run_pass w.
    assert (First : forall tl, In (Spawn preq o) (pass_head i ++ Spawn preq o :: tl))
      by (intros tl; simpl; auto).
    destruct o as [rc1 out1 err1| |e1].
    + destruct (rc1 =? 0)%Z eqn:R.
      * destruct i as [|i];
          [destruct (fs_glob_bib (os_fs os w0) project_dir) as [|b bs]|].
        all: match goal with
             | |- context [latex_passes _ _ _ _ _ _ _ ?w1] =>
                 destruct (passes todo w1) as [[w2 t2] r2] eqn:P
             end.
        all: intros E; injection E as <- <- <-.
        all: try (destruct (snd (os_spawn os w0 breq)); simpl in H).
        all: destruct (IH _ _ _ _ P) as [Q N];
          [intros r o Hin; apply H; simpl; repeat first [exact Hin | right]|].
        all: split; [exact Q|].
        all: simpl app.
        all: rewrite ?passes_in_log, passes_in_pass, ?passes_in_log,
               ?passes_in_bibtex, ?passes_in_log, N.
        all: reflexivity.
      * intros E; injection E as <- <- <-.
        destruct (H _ _ (First _) eq_refl) as [out [err X]].
        injection X as -> _ _. discriminate R.
    + intros E; injection E as <- <- <-.
      destruct (H _ _ (First _) eq_refl) as [out [err X]]. discriminate X.
    + intros E; injection E as <- <- <-.
      destruct (H _ _ (First _) eq_refl) as [out [err X]]. discriminate X.
Qed.

(** After the first iteration only the typesetting tool is started. *)
Lemma latex_passes_later_only_pdflatex (todo : list nat) :
  (forall i, In i todo -> i <> 0) ->
  forall w w' tr res,
    passes todo w = (w', tr, res) ->
    forall r o, In (Spawn r o) tr -> r = preq.
Proof.
  induction todo as [|i todo IH]; intros NZ w w' tr res E r o Hin.
  - injection E as _ <- _. contradiction.
  - revert E. run_pass w.
    destruct i as [|i]; [elim (NZ 0); simpl; auto|].
    assert (NZ' : forall j, In j todo -> j <> 0)
      by (intros j Hj; apply NZ; simpl; auto).
    destruct o0 as [rc1 out1 err1| |e1];
      [destruct (rc1 =? 0)%Z;
       [destruct (passes todo w0) as [[w2 t2] r2] eqn:P|]| |].
    all: intros E; injection E as <- <- <-.
    all: simpl in Hin.
    all: repeat (destruct Hin as [Hin|Hin];
                 [try discriminate Hin; injection Hin as <- _; reflexivity|]).
    all: try contradiction.
    eapply IH; eauto.
Qed.

(** The bibliography tool is started at one place only: in the
    iteration with [i = 0], right after a pass that exited with code 0
    and a glob that found a [.bib] file. *)
Lemma latex_passes_bibtex (n k : nat) :
  forall w w' tr res,
    passes (seq k n) w = (w', tr, res) ->
    forall pre r o post,
      tr = pre ++ Spawn r o :: post ->
      argv r = bibtex_command base_name ->
      k = 0
      /\ (exists out err,
             snd (os_spawn os w preq) = Exited 0 out err
             /\ pre = pass_head 0
                      ++ [Spawn preq (Exited 0 out err);
                          Log INFO (CommandCompleted 0);
                          Log INFO RunningBibtex;
                          Log INFO (Executing
                                      (Shlex.join (bibtex_command base_name))
                                      (Some project_dir))])
      /\ r = breq
      /\ fs_glob_bib (os_fs os (fst (os_spawn os w preq))) project_dir <> []
      /\ forall r' o', In (Spawn r' o') post -> r' = preq.
Proof.
  intros w w' tr res E pre r o post T A.
  assert (Clash : r <> preq) by (intros ->; discriminate A).
  destruct n as [|n].
  - injection E as _ <- _. destruct pre; discriminate T.
  - assert (Later : forall w1 w2 t2 r2,
              passes (seq (S k) n) w1 = (w2, t2, r2) ->
              forall r' o', In (Spawn r' o') t2 -> r' = preq).
    { intros w1 w2 t2 r2 P. eapply latex_passes_later_only_pdflatex; eauto.
      intros i Hi. apply in_seq in Hi. lia. }
    revert E. simpl seq. run_pass w.
    destruct o0 as [rc1 out1 err1| |e1];
      [destruct (rc1 =? 0)%Z eqn:R;
       [apply Z.eqb_eq in R; subst rc1;
        destruct k as [|k];
        [destruct (fs_glob_bib (os_fs os w0) project_dir) as [|b bs] eqn:G|];
        match goal with
        | |- context [latex_passes _ _ _ _ _ _ _ ?w1] =>
            destruct (passes (seq _ n) w1) as [[w2 t2] r2] eqn:P
        end|]| |].
    all: intros E; injection E as <- <- <-.
    all: simpl in T.
    all: try (destruct (snd (os_spawn os w0 breq)) eqn:OB; simpl in T).
    all: peel T pre; try discriminate T.
    all: try (exfalso; injection T as T1 _; symmetry in T1; contradiction).
    all: try (exfalso; destruct pre; discriminate T).
    all: try (exfalso; apply Clash; eapply Later; eauto;
              rewrite T; apply in_or_app; right; simpl; auto; fail).
    all: injection T as <- <- <-.
    all: repeat split; try discriminate; eauto.
    all: intros r' o' Hin; simpl in Hin.
    all: repeat (destruct Hin as [Hin|Hin]; [discriminate Hin|]).
    all: eapply Later; eauto.
Qed.

(** It is started whenever the first pass exits with code 0 and a
    [.bib] file is found. *)
Lemma latex_passes_runs_bibtex (n : nat) (w : World) (out err : option str) :
  snd (os_spawn os w preq) = Exited 0 out err ->
  fs_glob_bib (os_fs os (fst (os_spawn os w preq))) project_dir <> [] ->
  exists o, In (Spawn breq o) (snd (fst (passes (seq 0 (S n)) w))).
Proof.
  simpl seq. run_pass w. intros -> G.
  simpl. destruct (fs_glob_bib (os_fs os w0) project_dir); [congruence|].
  destruct (passes (seq 1 n) (fst (os_spawn os w0 breq))) as [[w2 t2] r2].
  exists (snd (os_spawn os w0 breq)). simpl. auto 10.
Qed.

End Compile.

Lemma nth_error_seq_eq (n s k i : nat) :
  nth_error (seq s n) k = Some i -> i = s + k.
Proof.
  revert s k; induction n as [|n IH]; intros s [|k]; simpl; try discriminate.
  - intros H; injection H as <-; lia.
  - intros H. apply IH in H. lia.
Qed.

Lemma spawn_before_last_log (t : list event) (l : level) (m : log_msg)
    (pre post : list event) (r : request) (o : outcome) :
  t ++ [Log l m] = pre ++ Spawn r o :: post ->
  exists post', t = pre ++ Spawn r o :: post' /\ post = post' ++ [Log l m].
Proof.
  intros H. destruct (exists_last (l := Spawn r o :: post)) as [post' [x E]];
    [discriminate|].
  rewrite E, app_assoc in H. apply app_inj_tail in H as [H <-].
  destruct post' as [|y post'].
  - discriminate E.
  - injection E as <- ->. exists post'; auto.
Qed.

Section CompileLatex.

Variable World : Type.
Variable os : OS World.
Variable tex_file : str.
Variable project_dir : PurePath.t.
Variables timeout runs : Z.

Local Abbreviation base_name := (drop_last4 tex_file).
Local Abbreviation preq := (pass_request tex_file project_dir timeout).
Local Abbreviation breq := (bibtex_request base_name project_dir).
Local Abbreviation pdf_path := (pdf_path_of tex_file project_dir).
Local Abbreviation compile :=
  (compile_latex_safe os tex_file project_dir timeout runs).
Local Abbreviation loop :=
  (latex_passes os tex_file base_name project_dir timeout runs (range runs)).

Lemma compile_rejected (w : World) :
  inputs_accepted (os_fs os w) tex_file project_dir = false ->
  exists v, compile w = (w, [], Raise (ValueError v)).
Proof.
  unfold inputs_accepted, compile_latex_safe, bind, reads, raise.
  destruct (endswith (lit ".tex") tex_file); simpl; [|eauto].
  destruct (contains (lit "/") tex_file || contains [92%N] tex_file);
    simpl; [eauto|].
  destruct (fs_is_dir (os_fs os w) project_dir); simpl; [|eauto].
  destruct (fs_exists (os_fs os w) _); simpl; [discriminate|eauto].
Qed.

Lemma compile_run (w : World) :
  inputs_accepted (os_fs os w) tex_file project_dir = true ->
  compile w =
  match loop w with
  | (w1, t1, Ok _) =>
      if fs_exists (os_fs os w1) pdf_path then
        (w1,
         (Log INFO (CompilingLatex tex_file runs) :: t1)
         ++ [Log INFO (CompilationSuccessful (PurePath.to_str pdf_path))],
         Ok pdf_path)
      else
        (w1, Log INFO (CompilingLatex tex_file runs) :: t1,
         Raise (CommandExecutionError
                  (PdfNotCreated (PurePath.to_str pdf_path))))
  | (w1, t1, Raise e) =>
      (w1, Log INFO (CompilingLatex tex_file runs) :: t1, Raise e)
  end.
Proof.
  unfold inputs_accepted, compile_latex_safe, pdf_path_of, bind, reads, raise,
    log, ret.
  destruct (endswith (lit ".tex") tex_file); simpl; [|discriminate].
  destruct (contains (lit "/") tex_file || contains [92%N] tex_file);
    simpl; [discriminate|].
  destruct (fs_is_dir (os_fs os w) project_dir); simpl; [|discriminate].
  destruct (fs_exists (os_fs os w) _); simpl; [intros _|discriminate].
  destruct (loop w) as [[w1 t1] [[]|e]]; simpl; [|reflexivity].
  destruct (fs_exists (os_fs os w1) _); simpl.
  - reflexivity.
  - rewrite app_nil_r; reflexivity.
Qed.

(** C3: a typesetting pass that exits non-zero ends the compilation at
    once.  After the process of that pass the trace holds three log
    lines only, so no further pass and no bibliography run follow; the
    last of them, at level ERROR, carries the captured stdout of the
    failing pass; and the call raises "pdflatex failed on run n", [n]
    being the number of that pass.  When the first pass fails, one pass
    in all has been started. *)
Theorem compile_stops_at_failed_pass (w w' : World) (tr : list event)
    (res : result PurePath.t) (pre post : list event) (r : request)
    (rc : Z) (out err : option str) :
  compile w = (w', tr, res) ->
  tr = pre ++ Spawn r (Exited rc out err) :: post ->
  argv r = pdflatex_command tex_file ->
  rc <> 0%Z ->
  let n := (Z.of_nat (passes_in tex_file pre) + 1)%Z in
  post = [Log INFO (CommandCompleted rc);
          Log ERROR (PdflatexFailedLog n);
          Log ERROR (OutputLog out)]
  /\ res = Raise (CommandExecutionError (PdflatexFailedOnRun n))
  /\ passes_in tex_file tr = passes_in tex_file pre + 1.
Proof.
  intros E T A NZ n.
  assert (Core :
    post = [Log INFO (CommandCompleted rc);
            Log ERROR (PdflatexFailedLog n);
            Log ERROR (OutputLog out)]
    /\ res = Raise (CommandExecutionError (PdflatexFailedOnRun n))).
  { destruct (inputs_accepted (os_fs os w) tex_file project_dir) eqn:I.
    - rewrite (compile_run w I) in E.
      destruct (loop w) as [[w1 t1] r1] eqn:L.
      assert (Loop : forall pre' post',
                t1 = pre' ++ Spawn r (Exited rc out err) :: post' ->
                passes_in tex_file pre' = passes_in tex_file pre ->
                post' = [Log INFO (CommandCompleted rc);
                         Log ERROR (PdflatexFailedLog n);
                         Log ERROR (OutputLog out)]
                /\ r1 = Raise (CommandExecutionError (PdflatexFailedOnRun n))).
      { intros pre' post' T1 Hn.
        destruct (latex_passes_failed_pass _ _ _ _ _ _ _ _ _ _ _ _ L
                    _ _ _ _ _ _ T1 A NZ) as [i [N [Q S]]].
        apply nth_error_seq_eq in N. simpl in N. subst i.
        subst n. rewrite <- Hn. auto. }
      destruct r1 as [[]|e].
      + exfalso.
        destruct (fs_exists (os_fs os w1) pdf_path);
          injection E as _ <- _.
        * destruct pre as [|x pre]; [discriminate T|].
          simpl in T. injection T as <- T.
          apply spawn_before_last_log in T as [post' [T _]].
          destruct (Loop _ _ T eq_refl) as [_ X]. discriminate X.
        * destruct pre as [|x pre]; [discriminate T|].
          injection T as <- T.
          destruct (Loop _ _ T eq_refl) as [_ X]. discriminate X.
      + injection E as _ <- <-.
        destruct pre as [|x pre]; [discriminate T|].
        injection T as <- T.
        destruct (Loop _ _ T eq_refl) as [Q X].
        injection X as ->. auto.
    - destruct (compile_rejected w I) as [v V].
      rewrite V in E. injection E as _ <- _.
      destruct pre; discriminate T. }
  destruct Core as [Q S]. repeat split; auto.
  rewrite T, passes_in_app, Q. simpl.
  unfold strs_eqb. rewrite A. fold (strs_eqb (pdflatex_command tex_file)
                                      (pdflatex_command tex_file)).
  rewrite strs_eqb_refl. lia.
Qed.

(** C5: when every pass that was started exited with code 0, the call
    is decided by the artifact alone: it returns the path
    [<base>.pdf] inside the project directory when that file exists
    after the last pass, and raises "PDF file not created" when it does
    not.  The text of that error starts with a cross mark and is the
    text of no other [CommandExecutionError], so it is told apart from
    the errors for a failed and for a timed-out command. *)
Theorem compile_checks_pdf (w w' : World) (tr : list event)
    (res : result PurePath.t) :
  inputs_accepted (os_fs os w) tex_file project_dir = true ->
  compile w = (w', tr, res) ->
  (forall r o, In (Spawn r o) tr -> argv r = pdflatex_command tex_file ->
               exists out err, o = Exited 0 out err) ->
  (fs_exists (os_fs os w') pdf_path = false ->
   res = Raise (CommandExecutionError
                  (PdfNotCreated (PurePath.to_str pdf_path))))
  /\ (fs_exists (os_fs os w') pdf_path = true -> res = Ok pdf_path)
  /\ (forall reason,
         message reason = message (PdfNotCreated (PurePath.to_str pdf_path)) ->
         reason = PdfNotCreated (PurePath.to_str pdf_path)).
Proof.
  intros I E H. rewrite (compile_run w I) in E.
  destruct (loop w) as [[w1 t1] r1] eqn:L.
  assert (R1 : r1 = Ok tt).
  { eapply (latex_passes_all_ok _ _ _ _ _ _ _ _ _ _ _ _ L).
    intros r o Hin. apply H.
    destruct r1 as [[]|e];
      [destruct (fs_exists (os_fs os w1) pdf_path)|];
      injection E as _ <- _; simpl; auto using in_or_app. }
  subst r1.
  split; [|split].
  - intros X. destruct (fs_exists (os_fs os w1) pdf_path) eqn:F;
      injection E as <- _ <-; congruence.
  - intros X. destruct (fs_exists (os_fs os w1) pdf_path) eqn:F;
      injection E as <- _ <-; congruence.
  - intros reason M. destruct reason; try discriminate M.
    simpl in M. injection M as M.
    apply app_inv_tail in M. rewrite M. reflexivity.
Qed.

(** C4: the bibliography tool is started at most once, and only right
    after a first pass that exited with code 0, when the glob of the
    project directory found a [.bib] file; under those conditions it is
    started.  Whatever it does (any exit code, a timeout, any other
    error) the loop goes on: if the passes themselves all exit with
    code 0, all [runs] passes are run and the only error the call can
    still raise is the missing PDF. *)
Theorem compile_runs_bibtex_once (w w' : World) (tr : list event)
    (res : result PurePath.t) :
  compile w = (w', tr, res) ->
  (forall pre r o post,
      tr = pre ++ Spawn r o :: post ->
      argv r = bibtex_command base_name ->
      (exists out err,
          snd (os_spawn os w preq) = Exited 0 out err
          /\ pre = Log INFO (CompilingLatex tex_file runs)
                   :: pass_head tex_file project_dir runs 0
                   ++ [Spawn preq (Exited 0 out err);
                       Log INFO (CommandCompleted 0);
                       Log INFO RunningBibtex;
                       Log INFO (Executing
                                   (Shlex.join (bibtex_command base_name))
                                   (Some project_dir))])
      /\ r = breq
      /\ fs_glob_bib (os_fs os (fst (os_spawn os w preq))) project_dir <> []
      /\ forall r' o', In (Spawn r' o') post -> r' = preq)
  /\ (inputs_accepted (os_fs os w) tex_file project_dir = true ->
      (0 < runs)%Z ->
      forall out err,
        snd (os_spawn os w preq) = Exited 0 out err ->
        fs_glob_bib (os_fs os (fst (os_spawn os w preq))) project_dir <> [] ->
        exists o, In (Spawn breq o) tr)
  /\ (inputs_accepted (os_fs os w) tex_file project_dir = true ->
      (forall r o, In (Spawn r o) tr -> argv r = pdflatex_command tex_file ->
                   exists out err, o = Exited 0 out err) ->
      passes_in tex_file tr = Z.to_nat runs
      /\ forall e, res = Raise e ->
                   e = CommandExecutionError
                         (PdfNotCreated (PurePath.to_str pdf_path))).
Proof.
  intros E.
  destruct (inputs_accepted (os_fs os w) tex_file project_dir) eqn:I.
  2:{ destruct (compile_rejected w I) as [v V].
      rewrite V in E. injection E as _ <- _.
      split; [|split]; try discriminate.
      intros pre r o post T. destruct pre; discriminate T. }
  rewrite (compile_run w I) in E.
  destruct (loop w) as [[w1 t1] r1] eqn:L.
  assert (Tr : exists tl, tr = Log INFO (CompilingLatex tex_file runs) :: t1 ++ tl
                          /\ (tl = [] \/ exists l m, tl = [Log l m])).
  { destruct r1 as [[]|e];
      [destruct (fs_exists (os_fs os w1) pdf_path)|];
      injection E as _ <- _.
    - eexists; split; [reflexivity|]. right; eauto.
    - exists []; rewrite app_nil_r; auto.
    - exists []; rewrite app_nil_r; auto. }
  destruct Tr as [tl [Tr Tl]].
  split; [|split].
  - intros pre r o post T A. rewrite Tr in T.
    destruct pre as [|x pre]; [discriminate T|].
    injection T as <- T.
    assert (T1 : exists post', t1 = pre ++ Spawn r o :: post'
                               /\ post = post' ++ tl).
    { destruct Tl as [->|[l [m ->]]].
      - rewrite app_nil_r in T. exists post. rewrite app_nil_r. auto.
      - apply spawn_before_last_log in T. exact T. }
    destruct T1 as [post' [T1 ->]].
    unfold range in L.
    destruct (latex_passes_bibtex _ _ _ _ _ _ _ _ _ _ _ _ _ L _ _ _ _ T1 A)
      as [_ [[out [err [O P]]] [R [G Post]]]].
    split; [|split; [|split]]; auto.
    + exists out, err. split; [exact O|]. rewrite P. reflexivity.
    + intros r' o' Hin. apply in_app_or in Hin as [Hin|Hin]; [eauto|].
      destruct Tl as [->|[l [m ->]]]; simpl in Hin;
        [contradiction|destruct Hin as [Hin|[]]; discriminate Hin].
  - intros _ Pos out err O G.
    unfold range in L. destruct (Z.to_nat runs) as [|n] eqn:N; [lia|].
    destruct (latex_passes_runs_bibtex _ os tex_file base_name project_dir
                timeout runs n w out err O G) as [o Hin].
    rewrite L in Hin. simpl in Hin.
    exists o. rewrite Tr. right. apply in_or_app; auto.
  - intros _ H.
    destruct (latex_passes_all_ok _ _ _ _ _ _ _ _ _ _ _ _ L) as [R1 N].
    { intros r o Hin. apply H. rewrite Tr. right. apply in_or_app; auto. }
    subst r1. split.
    + rewrite Tr, passes_in_log, passes_in_app, N.
      unfold range. rewrite length_seq.
      destruct Tl as [->|[l [m ->]]]; simpl; lia.
    + intros e X.
      destruct (fs_exists (os_fs os w1) pdf_path);
        injection E as _ _ <-; [discriminate X|].
      injection X as <-. reflexivity.
Qed.

End CompileLatex.

(** ** The compiler on a scripted system *)

Ltac spawn_cases Hin A :=
  vm_compute in Hin;
  repeat (destruct Hin as [Hin|Hin];
          [try discriminate Hin; injection Hin as <- <-;
           try (vm_compute in A; discriminate A); eauto|]);
  contradiction.

Lemma compile_stops_at_failed_pass_witness :
  let w := example_world
             [Exited 1 (Some (lit "! Undefined control sequence.")) (Some [])]
             false true in
  let run := compile_latex_safe scripted_os (lit "main.tex") example_dir 120 3 w in
  snd run = Raise (CommandExecutionError (PdflatexFailedOnRun 1))
  /\ passes_in (lit "main.tex") (snd (fst run)) = 1.
Proof.
  intros w run.
  pose proof (compile_stops_at_failed_pass _ scripted_os (lit "main.tex")
                example_dir 120 3 w (fst (fst run)) (snd (fst run)) (snd run)
                (firstn 3 (snd (fst run))) (skipn 4 (snd (fst run)))
                (pass_request (lit "main.tex") example_dir 120) 1
                (Some (lit "! Undefined control sequence.")) (Some []))
    as H.
  destruct H as [_ [R N]].
  - vm_compute; reflexivity.
  - vm_compute; reflexivity.
  - reflexivity.
  - discriminate.
  - split; [exact R | exact N].
Defined.

Lemma compile_checks_pdf_witness :
  let w := example_world [] false false in
  snd (compile_latex_safe scripted_os (lit "main.tex") example_dir 120 3 w)
  = Raise (CommandExecutionError (PdfNotCreated (lit "/papers/p/main.pdf"))).
Proof.
  intros w.
  set (run := compile_latex_safe scripted_os (lit "main.tex") example_dir
                120 3 w).
  refine (proj1 (compile_checks_pdf _ scripted_os (lit "main.tex") example_dir
                   120 3 w (fst (fst run)) (snd (fst run)) (snd run)
                   _ _ _) _).
  - vm_compute; reflexivity.
  - vm_compute; reflexivity.
  - intros r o Hin A. spawn_cases Hin A.
  - vm_compute; reflexivity.
Defined.

Lemma compile_runs_bibtex_once_witness :
  let w := example_world
             [Exited 0 (Some []) (Some []); TimedOut] true true in
  let run := compile_latex_safe scripted_os (lit "main.tex") example_dir 120 3 w in
  In (Spawn (bibtex_request (lit "main") example_dir) TimedOut) (snd (fst run))
  /\ passes_in (lit "main.tex") (snd (fst run)) = 3
  /\ snd run = Ok (PurePath.parse (lit "/papers/p/main.pdf")).
Proof.
  intros w run.
  pose proof (compile_runs_bibtex_once _ scripted_os (lit "main.tex")
                example_dir 120 3 w (fst (fst run)) (snd (fst run)) (snd run))
    as H.
  destruct H as [_ [_ H]]; [vm_compute; reflexivity|].
  destruct H as [N _].
  - vm_compute; reflexivity.
  - intros r o Hin A. spawn_cases Hin A.
  - split; [vm_compute; auto 10|].
    split; [exact N | vm_compute; reflexivity].
Defined.

(** * Further properties *)

(** ** Regular expressions: what is in the language matches *)

Lemma lang_nullable (r : Re.re) (s : str) :
  Re.lang r s -> s = [] -> Re.nullable r = true.
Proof.
  induction 1; simpl; intros E; try discriminate; auto.
  - apply app_eq_nil in E as [-> ->]. rewrite IHlang1, IHlang2; auto.
  - rewrite IHlang; auto.
  - rewrite IHlang; auto using orb_true_r.
Qed.

Lemma lang_deriv (r : Re.re) (w : str) :
  Re.lang r w -> forall x t, w = x :: t -> Re.lang (Re.deriv x r) t.
Proof.
  induction 1; intros x t E; simpl.
  - discriminate E.
  - injection E as <- <-. rewrite H. constructor.
  - destruct s1 as [|y s1]; simpl in E.
    + subst s2. rewrite (lang_nullable _ _ H eq_refl).
      apply Re.L_alt_r. apply IHlang2; reflexivity.
    + injection E as <- <-.
      destruct (Re.nullable r1).
      * apply Re.L_alt_l. constructor; auto.
      * constructor; auto.
  - apply Re.L_alt_l; auto.
  - apply Re.L_alt_r; auto.
  - discriminate E.
  - destruct s1 as [|y s1]; simpl in E.
    + apply (IHlang2 _ _ E).
    + injection E as <- <-. constructor; auto.
Qed.

Lemma lang_matches (r : Re.re) (s : str) :
  Re.lang r s -> Re.matches r s = true.
Proof.
  unfold Re.matches. revert r; induction s as [|a s IH]; simpl; intros r H.
  - eapply lang_nullable; eauto.
  - apply IH. eapply lang_deriv; eauto.
Qed.

Lemma matches_iff (r : Re.re) (s : str) :
  Re.matches r s = true <-> Re.lang r s.
Proof. split; [apply matches_lang | apply lang_matches]. Qed.

Lemma prefix_matches_iff (r : Re.re) (s : str) :
  Re.prefix_matches r s = true
  <-> exists m b, s = m ++ b /\ Re.lang r m.
Proof.
  revert r; induction s as [|a s IH]; intros r; simpl.
  - rewrite orb_false_r. split.
    + intros H. exists [], []. split; [reflexivity|].
      apply nullable_lang; exact H.
    + intros [m [b [E L]]]. symmetry in E.
      apply app_eq_nil in E as [-> _].
      eapply lang_nullable; eauto.
  - rewrite orb_true_iff, IH. split.
    + intros [H|[m [b [-> L]]]].
      * exists [], (a :: s). split; [reflexivity|].
        apply nullable_lang; exact H.
      * exists (a :: m), b. split; [reflexivity|].
        apply deriv_lang; exact L.
    + intros [[|x m] [b [E L]]].
      * left. eapply lang_nullable; eauto.
      * injection E as <- ->. right. exists m, b. split; [reflexivity|].
        eapply lang_deriv; eauto.
Qed.

Lemma search_iff (r : Re.re) (s : str) :
  Re.search r s = true
  <-> exists a m b, s = a ++ m ++ b /\ Re.lang r m.
Proof.
  induction s as [|x s IH]; cbn [Re.search].
  - rewrite orb_false_r, prefix_matches_iff. split.
    + intros [m [b [E L]]]. exists [], m, b; auto.
    + intros [a [m [b [E L]]]]. symmetry in E.
      apply app_eq_nil in E as [-> E]. exists m, b; auto.
  - rewrite orb_true_iff, IH, prefix_matches_iff. split.
    + intros [[m [b [E L]]]|[a [m [b [-> L]]]]].
      * exists [], m, b; auto.
      * exists (x :: a), m, b; auto.
    + intros [[|y a] [m [b [E L]]]].
      * left. exists m, b; auto.
      * injection E as <- ->. right. exists a, m, b; auto.
Qed.

Lemma star_set_iff (cs : Re.cls) (s : str) :
  Re.lang (Re.Star (Re.In cs)) s <-> forallb (Re.in_cls cs) s = true.
Proof.
  split.
  - intros H. remember (Re.Star (Re.In cs)) as r eqn:E.
    induction H; try discriminate E; auto.
    injection E as ->. inversion H; subst. simpl.
    rewrite IHlang2 by reflexivity.
    match goal with K : Re.in_cls _ _ = true |- _ => rewrite K end.
    reflexivity.
  - induction s as [|c s IH]; simpl; intros H.
    + constructor.
    + apply andb_true_iff in H as [Hc Hs].
      change (c :: s) with ([c] ++ s). constructor; auto.
      constructor; exact Hc.
Qed.

(** The words of [^[set]+$]: one or more characters of the set, and
    possibly one final newline. *)
Lemma between_same (x c : char) : between x x c = N.eqb c x.
Proof.
  unfold between.
  destruct (N.eqb_spec c x) as [->|NE].
  - rewrite N.leb_refl; reflexivity.
  - destruct (N.leb_spec x c), (N.leb_spec c x); simpl; auto. lia.
Qed.

Lemma newline_only (x : char) :
  Re.in_cls [(10%N, 10%N)] x = true -> x = 10%N.
Proof.
  unfold Re.in_cls. cbn [existsb fst snd]. rewrite orb_false_r, between_same.
  apply N.eqb_eq.
Qed.

Lemma dollar_lang (s : str) :
  Re.lang Re.Dollar s -> s = [] \/ s = [10%N].
Proof.
  intros H. inversion H; subst.
  - match goal with K : Re.lang (Re.Chr _) _ |- _ => inversion K; subst end.
    right. f_equal. apply newline_only. assumption.
  - match goal with K : Re.lang Re.Eps _ |- _ => inversion K; subst end.
    left; reflexivity.
Qed.

Lemma plus_set_lang (cs : Re.cls) (s : str) :
  Re.lang (Re.Plus (Re.In cs)) s ->
  s <> [] /\ forallb (Re.in_cls cs) s = true.
Proof.
  intros H. inversion H; subst.
  match goal with K : Re.lang (Re.In _) _ |- _ => inversion K; subst end.
  match goal with K : Re.lang (Re.Star _) _ |- _ =>
    apply star_set_iff in K; rename K into F end.
  split; [discriminate|]. simpl. rewrite F.
  match goal with K : Re.in_cls _ _ = true |- _ => rewrite K end.
  reflexivity.
Qed.

Lemma set_plus_dollar_iff (cs : Re.cls) (s : str) :
  Re.lang (Re.Cat (Re.Plus (Re.In cs)) Re.Dollar) s
  <-> exists body tail,
        s = body ++ tail /\ body <> []
        /\ forallb (Re.in_cls cs) body = true
        /\ (tail = [] \/ tail = [10%N]).
Proof.
  split.
  - intros H. inversion H; subst.
    match goal with
    | K1 : Re.lang (Re.Plus _) ?b, K2 : Re.lang Re.Dollar ?t |- _ =>
        exists b, t; apply plus_set_lang in K1 as [NE F];
        apply dollar_lang in K2
    end.
    auto.
  - intros [body [tail [-> [NE [F T]]]]].
    constructor.
    + destruct body as [|c body]; [elim NE; reflexivity|].
      simpl in F. apply andb_true_iff in F as [Fc Fb].
      change (c :: body) with ([c] ++ body). constructor.
      * constructor; exact Fc.
      * apply star_set_iff; exact Fb.
    + destruct T as [->| ->].
      * apply Re.L_alt_r. constructor.
      * apply Re.L_alt_l. constructor. reflexivity.
Qed.

Lemma strip_no_trailing_space (v body : str) (c : char) :
  strip v = body ++ [c] -> isspace c = false.
Proof.
  intros E. pose proof (lstrip_clean (rev (lstrip v))) as H.
  assert (R : rev (strip v) = lstrip (rev (lstrip v)))
    by (unfold strip, rstrip; apply rev_involutive).
  rewrite <- R, E, rev_app_distr in H. exact H.
Qed.

(** On a stripped string the [$] has no newline to forgive: the pattern
    matches exactly the non-empty strings over the set. *)
Lemma matches_set_plus_stripped (cs : Re.cls) (v : str) :
  Re.matches (Re.Cat (Re.Plus (Re.In cs)) Re.Dollar) (strip v) = true
  <-> strip v <> [] /\ forallb (Re.in_cls cs) (strip v) = true.
Proof.
  rewrite matches_iff, set_plus_dollar_iff. split.
  - intros [body [tail [E [NE [F [->| ->]]]]]].
    + rewrite app_nil_r in E. rewrite E. auto.
    + apply strip_no_trailing_space in E. discriminate E.
  - intros [NE F]. exists (strip v), []. rewrite app_nil_r. auto.
Qed.

Lemma forallb_pointwise {A} (f g : A -> bool) (l : list A) :
  (forall x, f x = g x) -> forallb f l = forallb g l.
Proof. intros H. induction l; simpl; congruence. Qed.

Ltac bool_cases c :=
  repeat match goal with
    | |- context [between ?a ?b c] => destruct (between a b c)
    | |- context [N.eqb c ?a] => destruct (N.eqb c a)
    end; reflexivity.

Lemma identifier_set (allow_dash allow_underscore allow_slash : bool) :
  allow_dash && allow_underscore && allow_slash = false ->
  exists cs,
    Re.compile_set_plus (allowed_chars allow_dash allow_underscore allow_slash)
    = Re.Pattern (Re.Cat (Re.Plus (Re.In cs)) Re.Dollar)
    /\ forall c, Re.in_cls cs c
                 = identifier_char allow_dash allow_underscore allow_slash c.
Proof.
  destruct allow_dash, allow_underscore, allow_slash; try discriminate;
    intros _; eexists; (split; [vm_compute; reflexivity|]); intros c;
    unfold Re.in_cls, identifier_char, is_alnum; cbn [existsb fst snd andb];
    rewrite ?between_same; bool_cases c.
Qed.

Lemma branch_set :
  exists cs,
    branch_pattern = Re.Pattern (Re.Cat (Re.Plus (Re.In cs)) Re.Dollar)
    /\ forall c, Re.in_cls cs c = branch_char c.
Proof.
  eexists; split; [vm_compute; reflexivity|]. intros c.
  unfold Re.in_cls, branch_char, is_alnum; cbn [existsb fst snd];
    rewrite ?between_same; bool_cases c.
Qed.

Lemma model_set (c : char) :
  Re.in_cls (set_of (lit "a-zA-Z0-9/_.-")) c = model_char c.
Proof.
  let v := eval vm_compute in (set_of (lit "a-zA-Z0-9/_.-")) in
  change (set_of (lit "a-zA-Z0-9/_.-")) with v.
  unfold Re.in_cls, model_char, is_alnum; cbn [existsb fst snd];
    rewrite ?between_same; bool_cases c.
Qed.

Lemma startswith_In (p s : str) (c : char) :
  startswith p s = true -> In c p -> In c s.
Proof.
  revert s; induction p as [|x p IH]; intros [|y s]; simpl;
    try discriminate; try contradiction.
  intros H [<-|Hc]; apply andb_true_iff in H as [E H].
  - apply N.eqb_eq in E; auto.
  - right; eauto.
Qed.

Lemma contains_In (sub s : str) (c : char) :
  contains sub s = true -> In c sub -> In c s.
Proof.
  induction s as [|y s IH]; simpl; intros H Hc.
  - rewrite orb_false_r in H. destruct sub; [contradiction|discriminate H].
  - apply orb_true_iff in H as [H|H].
    + exact (startswith_In _ _ _ H Hc).
    + right; auto.
Qed.

Lemma endswith_In (p s : str) (c : char) :
  endswith p s = true -> In c p -> In c s.
Proof.
  unfold endswith. intros H Hc. apply in_rev.
  eapply startswith_In; eauto. apply in_rev in Hc. exact Hc.
Qed.

Lemma forallb_In_false {A} (f : A -> bool) (l : list A) (x : A) :
  forallb f l = true -> f x = false -> ~ In x l.
Proof.
  intros F Hx Hin. rewrite forallb_forall in F.
  rewrite (F _ Hin) in Hx; discriminate.
Qed.

(** ** The validators: what they accept *)

Lemma identifier_char_excludes (allow_dash allow_underscore allow_slash : bool) :
  identifier_char allow_dash allow_underscore allow_slash 46%N = false
  /\ identifier_char allow_dash allow_underscore allow_slash 0%N = false.
Proof. destruct allow_dash, allow_underscore, allow_slash; split; reflexivity. Qed.

(** X1: Unless all three flags are set, [validate_identifier] accepts a
    value exactly when its stripped form is not empty, is at most
    [max_length] long and holds only letters, digits and the opted-in
    characters; the result is that stripped form. *)
Theorem validate_identifier_accepts_iff (value name : str) (max_length : Z)
    (allow_dash allow_underscore allow_slash : bool) (r : str) :
  allow_dash && allow_underscore && allow_slash = false ->
  (validate_identifier value name max_length
     allow_dash allow_underscore allow_slash = Ok r
   <-> r = strip value /\ r <> [] /\ (len r <= max_length)%Z
       /\ forallb (identifier_char allow_dash allow_underscore allow_slash) r
          = true).
Proof.
  intros Hf. destruct (identifier_set _ _ _ Hf) as [cs [Hp Hc]].
  rewrite <- (forallb_pointwise _ _ r Hc).
  pose proof (matches_set_plus_stripped cs value) as M.
  unfold validate_identifier. rewrite Hp. cbv zeta. split.
  - split_ifs; try discriminate. intros H; injection H as <-.
    match goal with K : negb (Re.matches _ _) = false |- _ =>
      apply negb_false_iff in K; apply M in K as [NE F] end.
    repeat split; auto.
    match goal with K : (_ <? _)%Z = false |- _ => apply Z.ltb_ge in K end.
    assumption.
  - intros [-> [NE [L F]]].
    assert (Mt : Re.matches (Re.Cat (Re.Plus (Re.In cs)) Re.Dollar)
                   (strip value) = true) by (apply M; auto).
    assert (IE : is_empty (strip value) = false)
      by (destruct (strip value); [elim NE|]; reflexivity).
    assert (IV : is_empty value = false)
      by (destruct value; [elim NE|]; reflexivity).
    apply Z.ltb_ge in L. rewrite IV, IE, L, Mt. cbn [negb].
    rewrite (forallb_pointwise _ _ _ Hc) in F.
    destruct (identifier_char_excludes allow_dash allow_underscore allow_slash)
      as [Dot Nul].
    destruct (contains (lit "..") (strip value)) eqn:C1.
    { elim (forallb_In_false _ _ _ F Dot).
      eapply contains_In; [exact C1|]. simpl; auto. }
    destruct (contains [0%N] (strip value)) eqn:C2.
    { elim (forallb_In_false _ _ _ F Nul).
      eapply contains_In; [exact C2|]. simpl; auto. }
    rewrite (accepted_by_charset_is_clean _ _ _ _ _ Hp Mt). reflexivity.
Qed.

Lemma validate_identifier_accepts_iff_witness :
  validate_identifier (lit " vq/rotation-2 ") (lit "research_field") 50
    true false true
  = Ok (lit "vq/rotation-2").
Proof.
  apply (validate_identifier_accepts_iff (lit " vq/rotation-2 ")
           (lit "research_field") 50 true false true (lit "vq/rotation-2")
           eq_refl).
  repeat split; try (vm_compute; reflexivity); try discriminate.
Defined.

Lemma charset_excludes_dot_nul (allow_dash allow_underscore allow_slash : bool)
    (pattern : Re.re) :
  Re.compile_set_plus (allowed_chars allow_dash allow_underscore allow_slash)
    = Re.Pattern pattern ->
  may_occur pattern 46%N = false /\ may_occur pattern 0%N = false.
Proof.
  intros H.
  destruct allow_dash, allow_underscore, allow_slash;
    vm_compute in H; try discriminate H;
    injection H as <-; split; vm_compute; reflexivity.
Qed.

(** X2: The path-traversal and the null-byte checks of
    [validate_identifier] never fire: the charset pattern has already
    turned away every value with a dot or a NUL, as "contains invalid
    characters". *)
Theorem validate_identifier_traversal_checks_unreachable
    (value name : str) (max_length : Z)
    (allow_dash allow_underscore allow_slash : bool) :
  (forall name' value',
      validate_identifier value name max_length
        allow_dash allow_underscore allow_slash
      <> Raise (ValidationError (PathTraversal name' value')))
  /\ (forall name',
      validate_identifier value name max_length
        allow_dash allow_underscore allow_slash
      <> Raise (ValidationError (NullByte name')))
  /\ (contains (lit "..") (strip value) = true
      \/ contains [0%N] (strip value) = true ->
      (len (strip value) <= max_length)%Z ->
      allow_dash && allow_underscore && allow_slash = false ->
      validate_identifier value name max_length
        allow_dash allow_underscore allow_slash
      = Raise (ValidationError
                 (InvalidCharacters name (strip value)
                    allow_dash allow_underscore allow_slash))).
Proof.
  assert (No : forall pattern,
    Re.compile_set_plus (allowed_chars allow_dash allow_underscore allow_slash)
    = Re.Pattern pattern ->
    contains (lit "..") (strip value) = true
    \/ contains [0%N] (strip value) = true ->
    Re.matches pattern (strip value) = false).
  { intros pattern Hp C.
    destruct (charset_excludes_dot_nul _ _ _ _ Hp) as [Dot Nul].
    destruct (Re.matches pattern (strip value)) eqn:M; [exfalso|reflexivity].
    destruct C as [C|C].
    - rewrite (matches_may_occur _ _ 46%N M) in Dot; [discriminate|].
      eapply contains_In; [exact C|simpl; auto].
    - rewrite (matches_may_occur _ _ 0%N M) in Nul; [discriminate|].
      eapply contains_In; [exact C|simpl; auto]. }
  split; [|split].
  - intros name' value'. unfold validate_identifier. cbv zeta.
    split_ifs; try discriminate. exfalso.
    match goal with
    | K : negb (Re.matches ?p _) = false |- _ =>
        rewrite (No p) in K;
        [discriminate K | first [assumption | reflexivity] | auto]
    end.
  - intros name'. unfold validate_identifier. cbv zeta.
    split_ifs; try discriminate. exfalso.
    match goal with
    | K : negb (Re.matches ?p _) = false |- _ =>
        rewrite (No p) in K;
        [discriminate K | first [assumption | reflexivity] | auto]
    end.
  - intros C L Hf. destruct (other_flags_compile _ _ _ Hf) as [pattern Hp].
    assert (NE : strip value <> []).
    { intros E. rewrite E in C. destruct C as [C|C]; discriminate C. }
    assert (IE : is_empty (strip value) = false)
      by (destruct (strip value); [elim NE|]; reflexivity).
    assert (IV : is_empty value = false)
      by (destruct value; [elim NE|]; reflexivity).
    unfold validate_identifier. cbv zeta. apply Z.ltb_ge in L.
    rewrite Hp, (No _ Hp C), IV, IE, L. reflexivity.
Qed.

Lemma validate_identifier_traversal_checks_unreachable_witness :
  validate_identifier (lit "../etc/passwd") (lit "field") 50 true true false
  = Raise (ValidationError
             (InvalidCharacters (lit "field") (lit "../etc/passwd")
                true true false)).
Proof.
  apply (proj2 (proj2 (validate_identifier_traversal_checks_unreachable
                         (lit "../etc/passwd") (lit "field") 50
                         true true false))).
  - left; vm_compute; reflexivity.
  - vm_compute; discriminate.
  - reflexivity.
Defined.

(** X5: [validate_branch_name] accepts a name exactly when its stripped
    form is not empty, is at most 255 long, holds only letters, digits,
    [/], [_] and [-], and does not start with [/]; the result is that
    stripped form. *)
Theorem validate_branch_name_accepts_iff (branch r : str) :
  validate_branch_name branch = Ok r
  <-> r = strip branch /\ r <> [] /\ (len r <= 255)%Z
      /\ forallb branch_char r = true
      /\ startswith (lit "/") r = false.
Proof.
  destruct branch_set as [cs [Hp Hc]].
  rewrite <- (forallb_pointwise _ _ r Hc).
  pose proof (matches_set_plus_stripped cs branch) as M.
  unfold validate_branch_name. rewrite Hp. cbv zeta. split.
  - split_ifs; try discriminate. intros H; injection H as <-.
    match goal with K : negb (Re.matches _ _) = false |- _ =>
      apply negb_false_iff in K; apply M in K as [NE F] end.
    match goal with K : (_ <? _)%Z = false |- _ => apply Z.ltb_ge in K end.
    match goal with K : _ || startswith (lit "/") _ = false |- _ =>
      apply orb_false_iff in K as [_ K] end.
    repeat split; auto.
  - intros [-> [NE [L [F S]]]].
    assert (Mt : Re.matches (Re.Cat (Re.Plus (Re.In cs)) Re.Dollar)
                   (strip branch) = true) by (apply M; auto).
    assert (IE : is_empty (strip branch) = false)
      by (destruct (strip branch); [elim NE|]; reflexivity).
    assert (IV : is_empty branch = false)
      by (destruct branch; [elim NE|]; reflexivity).
    rewrite (forallb_pointwise _ _ _ Hc) in F.
    assert (Dot : ~ In 46%N (strip branch))
      by (apply (forallb_In_false _ _ _ F); reflexivity).
    apply Z.ltb_ge in L. rewrite IV, IE, L, Mt, S. cbn [negb orb].
    destruct (startswith (lit ".") (strip branch)) eqn:C0.
    { elim Dot. eapply startswith_In; [exact C0|simpl; auto]. }
    destruct (endswith (lit ".lock") (strip branch)) eqn:C1.
    { elim Dot. eapply endswith_In; [exact C1|simpl; auto]. }
    destruct (contains (lit "..") (strip branch)) eqn:C2.
    { elim Dot. eapply contains_In; [exact C2|simpl; auto]. }
    reflexivity.
Qed.

Lemma validate_branch_name_accepts_iff_witness :
  validate_branch_name (lit "feature/new-api") = Ok (lit "feature/new-api").
Proof.
  apply (proj2 (validate_branch_name_accepts_iff (lit "feature/new-api")
                  (lit "feature/new-api"))).
  repeat split; try (vm_compute; reflexivity); try discriminate.
Defined.

(** X6: The git-specific checks of [validate_branch_name] that look for a
    dot never fire, because the character pattern before them admits no
    dot: no call ends in "cannot end with '.lock'" or in "cannot
    contain '..'", and "cannot start with '.' or '/'" is only raised
    for a leading slash.  A name with a dot, such as [x.lock] or
    [.hidden], is rejected as "Invalid branch name". *)
Theorem validate_branch_name_dot_checks_unreachable (branch : str) :
  validate_branch_name branch <> Raise (ValidationError BranchEndsWithLock)
  /\ validate_branch_name branch <> Raise (ValidationError BranchDotDot)
  /\ (validate_branch_name branch = Raise (ValidationError BranchBadStart) ->
      startswith (lit "/") (strip branch) = true)
  /\ (In 46%N branch -> (len (strip branch) <= 255)%Z ->
      validate_branch_name branch
      = Raise (ValidationError (BranchInvalid (strip branch)))).
Proof.
  destruct branch_set as [cs [Hp Hc]].
  pose proof (matches_set_plus_stripped cs branch) as M.
  assert (Dot : Re.matches (Re.Cat (Re.Plus (Re.In cs)) Re.Dollar)
                  (strip branch) = true -> ~ In 46%N (strip branch)).
  { intros Mt. apply M in Mt as [_ F].
    rewrite (forallb_pointwise _ _ _ Hc) in F.
    apply (forallb_In_false _ _ _ F); reflexivity. }
  unfold validate_branch_name. rewrite Hp. cbv zeta.
  split; [|split; [|split]].
  - split_ifs; try discriminate. exfalso.
    match goal with K : negb (Re.matches _ _) = false |- _ =>
      apply negb_false_iff in K; apply Dot in K; apply K end.
    eapply endswith_In; [eassumption|simpl; auto].
  - split_ifs; try discriminate. exfalso.
    match goal with K : negb (Re.matches _ _) = false |- _ =>
      apply negb_false_iff in K; apply Dot in K; apply K end.
    eapply contains_In; [eassumption|simpl; auto].
  - split_ifs; try discriminate. intros _.
    match goal with K : negb (Re.matches _ _) = false |- _ =>
      apply negb_false_iff in K; apply Dot in K end.
    match goal with K : _ || _ = true |- _ =>
      apply orb_true_iff in K as [K|K]; [exfalso|exact K] end.
    match goal with K : ~ In _ _ |- _ => apply K end.
    eapply startswith_In; [eassumption|simpl; auto].
  - intros Hin L.
    assert (Hs : In 46%N (strip branch))
      by (apply strip_keeps; [exact Hin|reflexivity]).
    assert (IE : is_empty (strip branch) = false)
      by (destruct (strip branch); [contradiction|reflexivity]).
    assert (IV : is_empty branch = false)
      by (destruct branch; [contradiction|reflexivity]).
    apply Z.ltb_ge in L. rewrite IV, IE, L. cbn [orb].
    destruct (Re.matches (Re.Cat (Re.Plus (Re.In cs)) Re.Dollar)
                (strip branch)) eqn:Mt; [|reflexivity].
    elim (Dot eq_refl Hs).
Qed.

Lemma validate_branch_name_dot_checks_unreachable_witness :
  validate_branch_name (lit "x.lock")
  = Raise (ValidationError (BranchInvalid (lit "x.lock"))).
Proof.
  apply (proj2 (proj2 (proj2 (validate_branch_name_dot_checks_unreachable
                                (lit "x.lock"))))).
  - vm_compute; auto.
  - vm_compute; discriminate.
Defined.

(** X7: [validate_model_name] accepts a name exactly when its stripped form
    is not empty, is at most 200 long and holds only letters, digits,
    [/], [_], [.] and [-]; the result is that stripped form. *)
Theorem validate_model_name_accepts_iff (model r : str) :
  validate_model_name model = Valid r
  <-> r = strip model /\ r <> [] /\ (len r <= 200)%Z
      /\ forallb model_char r = true.
Proof.
  rewrite <- (forallb_pointwise _ _ r model_set).
  pose proof (matches_set_plus_stripped (set_of (lit "a-zA-Z0-9/_.-")) model)
    as M.
  unfold validate_model_name, model_pattern. cbv zeta. split.
  - split_ifs; try discriminate. intros H; injection H as <-.
    match goal with K : negb (Re.matches _ _) = false |- _ =>
      apply negb_false_iff in K; apply M in K as [NE F] end.
    match goal with K : (_ <? _)%Z = false |- _ => apply Z.ltb_ge in K end.
    repeat split; auto.
  - intros [-> [NE [L F]]].
    assert (IE : is_empty (strip model) = false)
      by (destruct (strip model); [elim NE|]; reflexivity).
    assert (IV : is_empty model = false)
      by (destruct model; [elim NE|]; reflexivity).
    apply Z.ltb_ge in L. rewrite IV, IE, L. cbn [orb].
    replace (Re.matches _ (strip model)) with true
      by (symmetry; apply M; auto).
    reflexivity.
Qed.

Lemma validate_model_name_accepts_iff_witness :
  validate_model_name (lit "openrouter/google/gemini-2.5-pro")
  = Valid (lit "openrouter/google/gemini-2.5-pro").
Proof.
  apply (proj2 (validate_model_name_accepts_iff
                  (lit "openrouter/google/gemini-2.5-pro")
                  (lit "openrouter/google/gemini-2.5-pro"))).
  repeat split; try (vm_compute; reflexivity); try discriminate.
Defined.

(** ** validate_url: the scheme *)

Lemma chr_lang (c : char) (m : str) : Re.lang (Re.Chr c) m -> m = [c].
Proof.
  intros H. inversion H as [|cs x Hx| | | | |]; subst. f_equal.
  unfold Re.in_cls in Hx. cbn [existsb fst snd] in Hx.
  rewrite orb_false_r, between_same in Hx. apply N.eqb_eq; exact Hx.
Qed.

Lemma str_lang (t m : str) : Re.lang (Re.Str t) m -> m = t.
Proof.
  revert m; induction t as [|c t IH]; simpl; intros m H.
  - inversion H; reflexivity.
  - inversion H as [| |r1 r2 s1 s2 H1 H2| | | |]; subst.
    apply (chr_lang c) in H1. apply IH in H2. subst; reflexivity.
Qed.

(** A string [url_pattern] matches starts with [http://], [https://]
    or [git://]. *)
Lemma url_pattern_scheme (url : str) :
  Re.matches url_pattern url = true ->
  exists scheme rest,
    url = scheme ++ lit "://" ++ rest /\ In scheme url_schemes.
Proof.
  intros M. apply matches_lang in M. unfold url_pattern in M.
  inversion M as [| |r1 r2 s1 s2 H1 H2| | | |]; subst.
  inversion H2 as [| |r1 r2 s3 s4 H3 H4| | | |]; subst.
  apply (str_lang (lit "://")) in H3. subst s3.
  exists s1, s4. split; [reflexivity|].
  inversion H1 as [| | |r1 r2 s H5|r1 r2 s H5| |]; subst.
  - inversion H5 as [| |r1 r2 s5 s6 H6 H7| | | |]; subst.
    apply (str_lang (lit "http")) in H6. subst s5.
    inversion H7 as [| | |r1 r2 s H8|r1 r2 s H8| |]; subst.
    + apply (chr_lang 115%N) in H8. subst. right; left; reflexivity.
    + inversion H8; subst. left; reflexivity.
  - apply (str_lang (lit "git")) in H5. subst. right; right; left; reflexivity.
Qed.

(** For such a string the scheme the code computes, the lower-cased
    text before the first [://], is that prefix. *)
Lemma scheme_of_url (scheme rest : str) :
  In scheme url_schemes ->
  lower (split_head (lit "://") (scheme ++ lit "://" ++ rest)) = scheme.
Proof.
  intros [<-|[<-|[<-|[]]]]; reflexivity.
Qed.

Lemma mem_str_In (s : str) (l : list str) : mem_str s l = true <-> In s l.
Proof.
  unfold mem_str. rewrite existsb_exists. split.
  - intros [x [Hin E]]. apply eqb_eq in E. subst; exact Hin.
  - intros Hin. exists s. split; [exact Hin|apply eqb_refl].
Qed.

(** X8: A URL [validate_url] accepts is the stripped input; it starts with
    one of [http://], [https://], [git://], and that scheme is in the
    allow-list (so an entry of the list other than these three lets
    nothing through); it is ASCII; and it contains neither [127.0.0.1]
    nor, in any letter case, [localhost]. *)
Theorem validate_url_accepted_shape (url : str)
    (allowed_schemes : option (list str)) (r : str) :
  validate_url url allowed_schemes = Ok r ->
  r = strip url
  /\ (exists scheme rest,
         r = scheme ++ lit "://" ++ rest
         /\ In scheme url_schemes
         /\ In scheme (match allowed_schemes with
                       | None => default_allowed_schemes
                       | Some l => l
                       end))
  /\ (forall c, In c r -> (c < 128)%N)
  /\ contains (lit "127.0.0.1") r = false
  /\ contains (lit "localhost") (lower r) = false.
Proof.
  unfold validate_url. cbv zeta. split_ifs; try discriminate.
  intros H; injection H as <-.
  match goal with K : negb (Re.matches _ _) = false |- _ =>
    apply negb_false_iff in K; rename K into M end.
  match goal with K : _ || _ = false |- _ =>
    apply orb_false_iff in K as [L1 L2] end.
  destruct (url_pattern_scheme _ M) as [scheme [rest [E S]]].
  repeat split; auto.
  - exists scheme, rest. repeat split; auto.
    match goal with K : negb (mem_str _ _) = false |- _ =>
      apply negb_false_iff in K; rewrite E, (scheme_of_url _ _ S) in K;
      apply mem_str_In in K; exact K end.
  - apply url_pattern_ascii; exact M.
Qed.

Lemma validate_url_accepted_shape_witness :
  exists scheme rest,
    lit "git://example.org/repo.git" = scheme ++ lit "://" ++ rest
    /\ In scheme url_schemes
    /\ In scheme [lit "https"; lit "git"].
Proof.
  exact (proj1 (proj2 (validate_url_accepted_shape
                         (lit "  git://example.org/repo.git ")
                         (Some [lit "https"; lit "git"])
                         (lit "git://example.org/repo.git") eq_refl))).
Defined.

(** X9: The "scheme not allowed" error names one of [http], [https], [git],
    and only when the allow-list lacks it: a URL with any other scheme
    ([file], [ftp], [ssh], ...) fails the pattern check and is reported
    as "Invalid URL format", whatever the allow-list holds. *)
Theorem validate_url_scheme_error (url : str)
    (allowed_schemes : option (list str)) (scheme : str) (l : list str) :
  validate_url url allowed_schemes
  = Raise (ValidationError (UrlSchemeNotAllowed scheme l)) ->
  In scheme url_schemes
  /\ ~ In scheme l
  /\ l = match allowed_schemes with
         | None => default_allowed_schemes
         | Some l => l
         end
  /\ exists rest, strip url = scheme ++ lit "://" ++ rest.
Proof.
  unfold validate_url. cbv zeta. split_ifs; try discriminate.
  intros H; injection H as <- <-.
  match goal with K : negb (Re.matches _ _) = false |- _ =>
    apply negb_false_iff in K; rename K into M end.
  destruct (url_pattern_scheme _ M) as [scheme [rest [E S]]].
  rewrite E, (scheme_of_url _ _ S) in *.
  repeat split; auto.
  - match goal with K : negb (mem_str _ _) = true |- _ =>
      apply negb_true_iff in K; intros Hin; apply mem_str_In in Hin;
      rewrite Hin in K; discriminate K end.
  - exists rest; reflexivity.
Qed.

Lemma validate_url_scheme_error_witness :
  In (lit "http") url_schemes /\ ~ In (lit "http") default_allowed_schemes.
Proof.
  pose proof (validate_url_scheme_error (lit "http://github.com/a/b") None
                (lit "http") default_allowed_schemes eq_refl) as H.
  exact (conj (proj1 H) (proj1 (proj2 H))).
Defined.

(** ** sanitize_latex_content *)

Lemma strI_lang (t m : str) : Re.lang (Re.StrI t) m <-> same_ci t m = true.
Proof.
  revert m; induction t as [|c t IH]; intros m; simpl.
  - split.
    + intros H; inversion H; reflexivity.
    + destruct m; [constructor|discriminate].
  - split.
    + intros H. inversion H as [| |r1 r2 s1 s2 H1 H2| | | |]; subst.
      inversion H1 as [|cs x Hx| | | | |]; subst. simpl.
      rewrite Hx. apply IH; exact H2.
    + destruct m as [|x m]; [discriminate|]. intros H.
      apply andb_true_iff in H as [Hx Hm].
      change (x :: m) with ([x] ++ m). constructor.
      * constructor; exact Hx.
      * apply IH; exact Hm.
Qed.

Lemma same_ci_app (t u m1 m2 : str) :
  same_ci t m1 = true -> same_ci u m2 = true ->
  same_ci (t ++ u) (m1 ++ m2) = true.
Proof.
  revert m1; induction t as [|c t IH]; intros [|x m1]; simpl;
    try discriminate; auto.
  intros H Hu. apply andb_true_iff in H as [-> H]. simpl. auto.
Qed.

Lemma same_ci_split (t u m : str) :
  same_ci (t ++ u) m = true ->
  exists m1 m2, m = m1 ++ m2 /\ same_ci t m1 = true /\ same_ci u m2 = true.
Proof.
  revert m; induction t as [|c t IH]; intros m; simpl.
  - intros H. exists [], m. auto.
  - destruct m as [|x m]; [discriminate|]. intros H.
    apply andb_true_iff in H as [Hx H].
    destruct (IH _ H) as [m1 [m2 [-> [H1 H2]]]].
    exists (x :: m1), m2. simpl. rewrite Hx. auto.
Qed.

(** The words of the pattern for a piped [\input]: [\input|] and
    [\input{|] in any letter case. *)
Lemma input_pipe_lang (m : str) :
  Re.lang (Re.Cat (Re.StrI (lit "\input"))
             (Re.Cat (Re.Opt (Re.In (Re.ignorecase_set 123%N)))
                     (Re.In (Re.ignorecase_set 124%N)))) m
  <-> same_ci (lit "\input|") m = true
      \/ same_ci (lit "\input{|") m = true.
Proof.
  split.
  - intros H. inversion H as [| |r1 r2 s1 s2 H1 H2| | | |]; subst.
    apply (strI_lang (lit "\input")) in H1.
    inversion H2 as [| |r1 r2 s3 s4 H3 H4| | | |]; subst.
    inversion H4 as [|cs x Hx| | | | |]; subst.
    inversion H3 as [| | |r1 r2 s H5|r1 r2 s H5| |]; subst.
    + inversion H5 as [|cs y Hy| | | | |]; subst. right.
      apply (same_ci_app (lit "\input") (lit "{|")); [exact H1|].
      change (same_ci [123%N; 124%N] [y; x] = true). cbn [same_ci].
      rewrite Hx, Hy. reflexivity.
    + inversion H5; subst. left.
      apply (same_ci_app (lit "\input") (lit "|")); [exact H1|].
      change (same_ci [124%N] [x] = true). cbn [same_ci].
      rewrite Hx. reflexivity.
  - intros [H|H].
    + apply (same_ci_split (lit "\input") (lit "|")) in H
        as [m1 [m2 [-> [H1 H2]]]].
      constructor; [apply strI_lang; exact H1|].
      change (lit "|") with [124%N] in H2.
      destruct m2 as [|x [|y m2]]; cbn [same_ci] in H2; try discriminate.
      * rewrite andb_true_r in H2.
        change [x] with ([] ++ [x]). constructor.
        -- apply Re.L_alt_r. constructor.
        -- constructor; exact H2.
      * rewrite andb_false_r in H2; discriminate.
    + apply (same_ci_split (lit "\input") (lit "{|")) in H
        as [m1 [m2 [-> [H1 H2]]]].
      constructor; [apply strI_lang; exact H1|].
      change (lit "{|") with [123%N; 124%N] in H2.
      destruct m2 as [|x [|y [|z m2]]]; cbn [same_ci] in H2;
        try discriminate.
      * rewrite andb_false_r in H2; discriminate.
      * rewrite andb_true_r in H2. apply andb_true_iff in H2 as [Hx Hy].
        change [x; y] with ([x] ++ [y]). constructor.
        -- apply Re.L_alt_l. constructor; exact Hx.
        -- constructor; exact Hy.
      * rewrite !andb_false_r in H2; discriminate.
Qed.

(** Some pattern of the list has [m] as a word exactly when [m] is a
    blocked token up to letter case. *)
Lemma dangerous_patterns_tokens (m : str) :
  (exists p, In p dangerous_patterns /\ Re.lang (fst p) m)
  <-> exists token, In token blocked_tokens /\ same_ci token m = true.
Proof.
  split.
  - intros [p [Hin L]]. unfold dangerous_patterns in Hin. cbn [In] in Hin.
    destruct Hin as [<-|[<-|[<-|[<-|[<-|[<-|[<-|[]]]]]]]]; cbn [fst] in L.
    2:{ apply input_pipe_lang in L as [L|L]; eexists; split; try exact L;
        unfold blocked_tokens; cbn [In]; auto. }
    all: apply strI_lang in L; eexists; split; [|exact L];
      unfold blocked_tokens; cbn [In]; auto 10.
  - intros [token [Hin S]]. unfold blocked_tokens in Hin. cbn [In] in Hin.
    destruct Hin as [<-|[<-|[<-|[<-|[<-|[<-|[<-|[<-|[]]]]]]]]].
    2:{ eexists; split;
          [unfold dangerous_patterns; right; left; reflexivity|].
        apply input_pipe_lang; auto. }
    2:{ eexists; split;
          [unfold dangerous_patterns; right; left; reflexivity|].
        apply input_pipe_lang; auto. }
    all: apply strI_lang in S; unfold dangerous_patterns;
      match type of S with
      | Re.lang ?r _ =>
          match goal with
          | |- context [(r, ?n)] => exists (r, n)
          end
      end.
    all: split; [cbn [In]; auto 10|exact S].
Qed.

Lemma scan_patterns_valid (patterns : list (Re.re * str)) (content r : str) :
  scan_patterns patterns content = Valid r
  <-> r = content
      /\ forall p, In p patterns -> Re.search (fst p) content = false.
Proof.
  induction patterns as [|[pattern cmd_name] ps IH]; simpl.
  - split.
    + intros H; injection H as <-. split; [reflexivity|contradiction].
    + intros [-> _]; reflexivity.
  - destruct (Re.search pattern content) eqn:S.
    + split; [discriminate|]. intros [_ H].
      specialize (H _ (or_introl eq_refl)). simpl in H. congruence.
    + rewrite IH. split; intros [E H]; (split; [exact E|]).
      * intros p [<-|Hin]; auto.
      * intros p Hin; auto.
Qed.

Lemma search_false_iff (r : Re.re) (s : str) :
  Re.search r s = false
  <-> forall a m b, s = a ++ m ++ b -> ~ Re.lang r m.
Proof.
  destruct (Re.search r s) eqn:S.
  - apply search_iff in S as [a [m [b [E L]]]]. split; [discriminate|].
    intros H. elim (H _ _ _ E L).
  - split; [|reflexivity]. intros _ a m b E L.
    assert (X : Re.search r s = true) by (apply search_iff; eauto).
    congruence.
Qed.

(** X10: [sanitize_latex_content] returns its argument unchanged, and does so
    exactly when no blocked token ([\write18], [\input|], [\input{|],
    [\immediate], [\openout], [\openin], [\special], [\pdfliteral])
    occurs anywhere in it in any letter case; an occurrence of
    [\write18] is reported under that name whatever else the content
    holds. *)
Theorem sanitize_latex_content_blocks_tokens (content : str) :
  (forall r, sanitize_latex_content content = Valid r -> r = content)
  /\ (sanitize_latex_content content = Valid content
      <-> ~ token_occurs content)
  /\ (forall a m b,
         content = a ++ m ++ b -> same_ci (lit "\write18") m = true ->
         sanitize_latex_content content
         = Invalid (DangerousLatexCommand (lit "write18 (shell escape)"))).
Proof.
  unfold sanitize_latex_content. split; [|split].
  - intros r H. apply scan_patterns_valid in H. tauto.
  - rewrite scan_patterns_valid. unfold token_occurs. split.
    + intros [_ H] [token [a [m [b [Hin [E S]]]]]].
      assert (X : exists p, In p dangerous_patterns /\ Re.lang (fst p) m)
        by (apply dangerous_patterns_tokens; eauto).
      destruct X as [p [Hp L]].
      specialize (H _ Hp). rewrite search_false_iff in H.
      exact (H _ _ _ E L).
    + intros H. split; [reflexivity|]. intros p Hp.
      apply search_false_iff. intros a m b E L.
      assert (X : exists token, In token blocked_tokens
                                /\ same_ci token m = true)
        by (apply dangerous_patterns_tokens; eauto).
      destruct X as [token [Hin S]].
      apply H. exists token, a, m, b. auto.
  - intros a m b E S. unfold dangerous_patterns. cbn [scan_patterns].
    replace (Re.search (Re.StrI (lit "\write18")) content) with true;
      [reflexivity|].
    symmetry. apply search_iff. exists a, m, b. split; [exact E|].
    apply strI_lang; exact S.
Qed.

Lemma sanitize_latex_content_blocks_tokens_witness :
  sanitize_latex_content (lit "\Immediate\WRITE18{rm -rf /}")
  = Invalid (DangerousLatexCommand (lit "write18 (shell escape)")).
Proof.
  apply (proj2 (proj2 (sanitize_latex_content_blocks_tokens
                         (lit "\Immediate\WRITE18{rm -rf /}")))
           (lit "\Immediate") (lit "\WRITE18") (lit "{rm -rf /}")).
  - reflexivity.
  - vm_compute; reflexivity.
Defined.

Lemma validate_port_range (port : Z) (name : str) (p : Z) :
  validate_port port name = Valid p
  <-> p = port /\ (1024 <= port <= 65535)%Z.
Proof.
  unfold validate_port.
  destruct (Z.ltb_spec port 1024) as [A|A];
    destruct (Z.ltb_spec 65535 port) as [B|B]; simpl.
  - split; [discriminate|lia].
  - split; [discriminate|lia].
  - split; [discriminate|lia].
  - split.
    + intros H; injection H as H. subst p. split; [reflexivity|lia].
    + intros [-> _]; reflexivity.
Qed.

(** ** Running commands: results and arguments *)

Section Commands.

Variable World : Type.
Variable os : OS World.

(** X12: [execute_command_safe] lets two kinds of exception out: the
    [ValueError] for an empty command, and [CommandExecutionError], into
    which a non-zero exit under [check], a timeout and every other
    failure of process creation are wrapped.  When it returns, the
    result is what the process reported, and under [check] its return
    code is 0. *)
Theorem execute_command_safe_result
    (command : list str) (cwd : option PurePath.t) (timeout : Z)
    (check : bool) (env : option (list (str * str))) (capture_output : bool)
    (w w' : World) (tr : list event) (res : result CompletedProcess) :
  execute_command_safe os command cwd timeout check env capture_output w
  = (w', tr, res) ->
  let o := snd (os_spawn os w
                  {| argv := command; cwd := cwd;
                     capture_output := capture_output; text := true;
                     timeout := timeout; check := check; shell := false;
                     env := env |}) in
  match res with
  | Ok cp =>
      command <> []
      /\ o = Exited (returncode cp) (stdout cp) (stderr cp)
      /\ (check = true -> returncode cp = 0%Z)
  | Raise e =>
      (command = [] /\ e = ValueError CommandMustBeNonEmptyList)
      \/ (command <> []
          /\ exists r, e = CommandExecutionError r
             /\ match o with
                | Exited rc _ err =>
                    check = true /\ rc <> 0%Z
                    /\ r = CommandFailed rc (Shlex.join command) err
                | TimedOut => r = CommandTimedOut timeout (Shlex.join command)
                | Failed x => r = UnexpectedError x
                end)
  end.
Proof.
  intros E o. subst o. revert E.
  destruct command as [|c cs].
  - intros E; injection E as _ _ <-. left; auto.
  - unfold execute_command_safe, bind, spawn, log, raise, ret.
    destruct (os_spawn os w _) as [w1 o]. simpl.
    destruct o as [rc out err| |x]; simpl.
    + destruct check; simpl.
      * destruct (rc =? 0)%Z eqn:R; simpl; intros E; injection E as _ _ <-.
        -- apply Z.eqb_eq in R. subst. repeat split; auto; discriminate.
        -- apply Z.eqb_neq in R. right. split; [discriminate|].
           eexists; split; [reflexivity|auto].
      * intros E; injection E as _ _ <-. simpl.
        repeat split; try discriminate.
    + intros E; injection E as _ _ <-. right. split; [discriminate|].
      eexists; split; reflexivity.
    + intros E; injection E as _ _ <-. right. split; [discriminate|].
      eexists; split; reflexivity.
Qed.

Lemma execute_spawns (command : list str) (cwd : option PurePath.t)
    (timeout : Z) (check : bool) (env : option (list (str * str)))
    (capture_output : bool) (w : World) (r : request) (o : outcome) :
  In (Spawn r o)
    (snd (fst (execute_command_safe os command cwd timeout check env
                 capture_output w))) ->
  r = {| argv := command; cwd := cwd; capture_output := capture_output;
         text := true; timeout := timeout; check := check; shell := false;
         env := env |}
  /\ o = snd (os_spawn os w r).
Proof.
  destruct command as [|c cs]; [contradiction|].
  unfold execute_command_safe, bind, spawn, log, raise, ret.
  destruct (os_spawn os w _) as [w1 o1] eqn:S. simpl.
  destruct o1 as [rc out err| |x]; simpl;
    [destruct (check && negb (rc =? 0)%Z); simpl| |];
    intros [H|[H|[H|[]]]]; try discriminate H;
    injection H as <- <-; rewrite S; auto.
Qed.

(** X14: Whatever [git_checkout_safe] starts is [git checkout [-b] b] with
    the shell off, run in [repo_dir] with the default timeout of 60 s and
    exit-code checking, where [b] is the branch as validated and
    [repo_dir] is a directory.  A rejected branch or a missing directory
    raises before anything is logged or started. *)
Theorem git_checkout_safe_command (branch : str) (repo_dir : PurePath.t)
    (create : bool) (w w' : World) (tr : list event) (res : result unit) :
  git_checkout_safe os branch repo_dir create w = (w', tr, res) ->
  (forall r o, In (Spawn r o) tr ->
     exists b,
       validate_branch_name branch = Ok b
       /\ fs_is_dir (os_fs os w) repo_dir = true
       /\ r = {| argv := [lit "git"; lit "checkout"]
                         ++ (if create then [lit "-b"] else []) ++ [b];
                 cwd := Some repo_dir; capture_output := true; text := true;
                 timeout := 60; check := true; shell := false; env := None |})
  /\ ((forall b, validate_branch_name branch <> Ok b)
      \/ fs_is_dir (os_fs os w) repo_dir = false ->
      w' = w /\ tr = [] /\ exists e, res = Raise e).
Proof.
  unfold git_checkout_safe, bind, lift, reads, raise, log.
  destruct (validate_branch_name branch) as [b|e] eqn:V.
  - destruct (fs_is_dir (os_fs os w) repo_dir) eqn:D; cbn [negb].
    + match goal with
      | |- context [execute_command_safe os ?c ?d ?t ?k ?e ?cap w] =>
          destruct (execute_command_safe os c d t k e cap w)
            as [[w1 t1] r1] eqn:X
      end.
      intros E. split.
      * intros r o Hin. exists b. repeat split.
        assert (Hin1 : In (Spawn r o) t1).
        { destruct r1 as [cp|e]; injection E as _ <- _; simpl in Hin.
          - destruct Hin as [H|H]; [discriminate H|].
            apply in_app_or in H as [H|H]; [exact H|].
            simpl in H. destruct H as [H|[]]; discriminate H.
          - destruct Hin as [H|H]; [discriminate H|exact H]. }
        replace t1 with (snd (fst (execute_command_safe os
                          ([lit "git"; lit "checkout"]
                           ++ (if create then [lit "-b"] else []) ++ [b])
                          (Some repo_dir) 60 true None true w))) in Hin1
          by (rewrite X; reflexivity).
        apply execute_spawns in Hin1. tauto.
      * intros [H|H]; [elim (H b); reflexivity|discriminate H].
    + intros E; injection E as <- <- <-. split; [contradiction|eauto].
  - intros E; injection E as <- <- <-. split; [contradiction|eauto].
Qed.

Lemma validate_branch_name_nonempty (branch b : str) :
  validate_branch_name branch = Ok b -> is_empty b = false.
Proof.
  unfold validate_branch_name. cbv zeta.
  destruct (is_empty branch || is_empty (strip branch)) eqn:E;
    [discriminate|].
  apply orb_false_iff in E as [_ E].
  split_ifs; try discriminate. intros H; injection H as <-. exact E.
Qed.

(** [git_clone_safe], every branch written out. *)
Lemma git_clone_safe_run (url : str) (target_dir : PurePath.t)
    (branch : option str) (depth timeout : Z) (w : World) :
  git_clone_safe os url target_dir branch depth timeout w =
  match validate_url url (Some [lit "https"; lit "git"]) with
  | Raise e => (w, [], Raise e)
  | Ok u =>
      match clone_branch_args branch with
      | Raise e => (w, [], Raise e)
      | Ok bargs =>
          if fs_exists (os_fs os w) target_dir then
            (w, [], Raise (ValueError
                             (TargetDirectoryExists
                                (PurePath.to_str target_dir))))
          else
            match snd (os_mkdir os w (PurePath.parent target_dir)) with
            | Some e =>
                (fst (os_mkdir os w (PurePath.parent target_dir)), [],
                 Raise (OSError e))
            | None =>
                let run :=
                  execute_command_safe os
                    (clone_command bargs depth u target_dir)
                    None timeout true None true
                    (fst (os_mkdir os w (PurePath.parent target_dir))) in
                match snd run with
                | Ok _ =>
                    (fst (fst run),
                     Log INFO (CloningRepository u) :: snd (fst run)
                     ++ [Log INFO (ClonedTo (PurePath.to_str target_dir))],
                     Ok tt)
                | Raise e =>
                    (fst (fst run),
                     Log INFO (CloningRepository u) :: snd (fst run),
                     Raise e)
                end
            end
      end
  end.
Proof.
  unfold git_clone_safe, clone_branch_args, clone_command, bind, lift, reads,
    raise, ret, mkdir_parents, log.
  destruct (validate_url url (Some [lit "https"; lit "git"])) as [u|e];
    [|reflexivity].
  assert (G' : forall b b', validate_branch_name b = Ok b' ->
                            given (Some b') = true).
  { intros b b' V. unfold given.
    rewrite (validate_branch_name_nonempty _ _ V). reflexivity. }
  destruct branch as [b|];
    [destruct (given (Some b)) eqn:G;
     [destruct (validate_branch_name b) as [b'|e] eqn:V; [|reflexivity]|]|].
  all: cbv beta iota zeta; rewrite ?G, ?(G' _ _ V).
  all: destruct (fs_exists (os_fs os w) target_dir); [reflexivity|].
  all: destruct (os_mkdir os w (PurePath.parent target_dir)) as [w1 [e|]];
    [reflexivity|].
  all: cbn [fst snd]; cbv beta iota zeta.
  all: match goal with
       | |- context [execute_command_safe _ ?c _ _ _ _ _ ?w0] =>
           destruct (execute_command_safe os c None timeout true None true w0)
             as [[w6 t6] [cp|e]]
       end.
  all: cbn [fst snd app]; rewrite ?app_nil_r; reflexivity.
Qed.

Lemma execute_checked_ok (command : list str) (cwd : option PurePath.t)
    (timeout : Z) (env : option (list (str * str))) (capture_output : bool)
    (w : World) :
  command <> [] ->
  (exists cp, snd (execute_command_safe os command cwd timeout true env
                     capture_output w) = Ok cp)
  <-> exists out err,
        snd (os_spawn os w
               {| argv := command; cwd := cwd;
                  capture_output := capture_output; text := true;
                  timeout := timeout; check := true; shell := false;
                  env := env |}) = Exited 0 out err.
Proof.
  destruct command as [|c cs]; [intros H; elim H; reflexivity|intros _].
  unfold execute_command_safe, bind, spawn, log, raise, ret.
  destruct (os_spawn os w _) as [w1 o]. simpl.
  destruct o as [rc out err| |x]; simpl.
  - destruct (rc =? 0)%Z eqn:R; simpl.
    + apply Z.eqb_eq in R. subst. split; eauto.
    + apply Z.eqb_neq in R. split.
      * intros [cp X]; discriminate X.
      * intros [out' [err' X]]. injection X as -> _ _. elim R; reflexivity.
  - split; [intros [cp X]; discriminate X|intros [? [? X]]; discriminate X].
  - split; [intros [cp X]; discriminate X|intros [? [? X]]; discriminate X].
Qed.

(** X13: Whatever [git_clone_safe] starts is one [git clone] with the shell
    off and exit-code checking, whose arguments are, in this order: the
    fixed words, [--branch b] for a given branch with [b] as validated,
    [--depth n] for a positive depth, the URL as validated and the
    target path.  It is started only when the URL and the branch passed
    validation, the target did not exist and its parent was created;
    and the call returns exactly when git exits with code 0. *)
Theorem git_clone_safe_command (url : str) (target_dir : PurePath.t)
    (branch : option str) (depth timeout : Z) (w w' : World)
    (tr : list event) (res : result unit) (r : request) (o : outcome) :
  git_clone_safe os url target_dir branch depth timeout w = (w', tr, res) ->
  In (Spawn r o) tr ->
  fs_exists (os_fs os w) target_dir = false
  /\ snd (os_mkdir os w (PurePath.parent target_dir)) = None
  /\ exists u bargs,
       validate_url url (Some [lit "https"; lit "git"]) = Ok u
       /\ clone_branch_args branch = Ok bargs
       /\ r = {| argv := clone_command bargs depth u target_dir;
                 cwd := None; capture_output := true; text := true;
                 timeout := timeout; check := true; shell := false;
                 env := None |}
       /\ (res = Ok tt <-> exists out err, o = Exited 0 out err).
Proof.
  rewrite git_clone_safe_run.
  destruct (validate_url url (Some [lit "https"; lit "git"])) as [u|e];
    [|intros E; injection E as _ <- _; contradiction].
  destruct (clone_branch_args branch) as [bargs|e];
    [|intros E; injection E as _ <- _; contradiction].
  destruct (fs_exists (os_fs os w) target_dir);
    [intros E; injection E as _ <- _; contradiction|].
  destruct (os_mkdir os w (PurePath.parent target_dir)) as [w1 [e|]];
    cbn [fst snd]; [intros E; injection E as _ <- _; contradiction|].
  cbv zeta.
  pose proof (execute_spawns (clone_command bargs depth u target_dir) None
                timeout true None true w1 r o) as Sp.
  pose proof (execute_checked_ok (clone_command bargs depth u target_dir) None
                timeout None true w1) as Okk.
  destruct (execute_command_safe os (clone_command bargs depth u target_dir)
              None timeout true None true w1) as [[w3 t3] r3].
  cbn [fst snd] in *.
  assert (NE : clone_command bargs depth u target_dir <> [])
    by discriminate.
  specialize (Okk NE).
  intros E Hin.
  assert (Hin3 : In (Spawn r o) t3).
  { destruct r3 as [cp|e]; injection E as _ <- _; simpl in Hin.
    - destruct Hin as [H|H]; [discriminate H|].
      apply in_app_or in H as [H|H]; [exact H|].
      simpl in H. destruct H as [H|[]]; discriminate H.
    - destruct Hin as [H|H]; [discriminate H|exact H]. }
  destruct (Sp Hin3) as [Hr Ho].
  repeat split; auto. exists u, bargs. repeat split; auto.
  - intros R. rewrite Ho, Hr. apply Okk.
    destruct r3 as [cp|e]; [eauto|].
    injection E as _ _ <-. discriminate R.
  - intros X. rewrite Ho, Hr in X. apply Okk in X as [cp X]. subst r3.
    injection E as _ _ <-. reflexivity.
Qed.

(** X15: Whatever [run_python_safe] starts is [python <script> <args...>]
    with the shell off, exit-code checking and the caller's working
    directory, timeout and environment, for a script that exists and
    whose name ends in [.py]; a missing script or another suffix raises
    [ValueError] before anything is logged or started. *)
Theorem run_python_safe_command (script_path : PurePath.t)
    (args : option (list str)) (cwd : option PurePath.t) (timeout : Z)
    (env : option (list (str * str))) (w w' : World) (tr : list event)
    (res : result CompletedProcess) :
  run_python_safe os script_path args cwd timeout env w = (w', tr, res) ->
  (forall r o, In (Spawn r o) tr ->
     fs_exists (os_fs os w) script_path = true
     /\ PurePath.suffix script_path = lit ".py"
     /\ r = {| argv := [lit "python"; PurePath.to_str script_path]
                       ++ match args with Some a => a | None => [] end;
               cwd := cwd; capture_output := true; text := true;
               timeout := timeout; check := true; shell := false;
               env := env |})
  /\ (fs_exists (os_fs os w) script_path = false
      \/ PurePath.suffix script_path <> lit ".py" ->
      w' = w /\ tr = [] /\ exists v, res = Raise (ValueError v)).
Proof.
  unfold run_python_safe, bind, reads, raise, log.
  destruct (fs_exists (os_fs os w) script_path) eqn:X; cbn [negb].
  2:{ intros E; injection E as <- <- <-. split; [contradiction|eauto]. }
  destruct (PyStr.eqb (PurePath.suffix script_path) (lit ".py")) eqn:S;
    cbn [negb].
  2:{ intros E; injection E as <- <- <-. split; [contradiction|eauto]. }
  apply eqb_eq in S.
  match goal with
  | |- context [execute_command_safe _ ?c _ _ _ _ _ _] =>
      pose proof (execute_spawns c cwd timeout true env true w) as Sp;
      destruct (execute_command_safe os c cwd timeout true env true w)
        as [[w1 t1] r1]
  end.
  cbn [fst snd] in Sp. intros E. injection E as _ <- _. split.
  - intros r o Hin. simpl in Hin. destruct Hin as [H|H]; [discriminate H|].
    destruct (Sp _ _ H) as [Hr _]. auto.
  - intros [H|H]; [discriminate H|elim H; exact S].
Qed.

End Commands.

Lemma git_checkout_safe_command_witness :
  let w := {| script := []; files := []; dirs := []; bibs := [] |} in
  fst (git_checkout_safe scripted_os (lit "main") (PurePath.parse (lit "/repo"))
         false w)
  = (w, []).
Proof.
  intros w.
  set (run := git_checkout_safe scripted_os (lit "main")
                (PurePath.parse (lit "/repo")) false w).
  destruct (proj2 (git_checkout_safe_command _ scripted_os (lit "main")
                     (PurePath.parse (lit "/repo")) false w
                     (fst (fst run)) (snd (fst run)) (snd run) eq_refl))
    as [A [B _]].
  - right; reflexivity.
  - rewrite (surjective_pairing (fst run)), A, B. reflexivity.
Defined.

Lemma execute_command_safe_result_witness :
  let w := {| script := [TimedOut]; files := []; dirs := []; bibs := [] |} in
  let command := [lit "git"; lit "status"] in
  (command = [] /\ CommandExecutionError (CommandTimedOut 60 (lit "git status"))
                   = ValueError CommandMustBeNonEmptyList)
  \/ (command <> []
      /\ exists r,
           CommandExecutionError (CommandTimedOut 60 (lit "git status"))
           = CommandExecutionError r
           /\ r = CommandTimedOut 60 (Shlex.join command)).
Proof.
  intros w command.
  set (run := execute_command_safe scripted_os command None 60 true None
                true w).
  exact (execute_command_safe_result _ scripted_os command None 60 true None
           true w (fst (fst run)) (snd (fst run)) (snd run) eq_refl).
Defined.

Lemma git_clone_safe_command_witness :
  let w := {| script := []; files := []; dirs := []; bibs := [] |} in
  let r := {| argv := [lit "git"; lit "clone"; lit "--branch"; lit "main";
                       lit "--depth"; lit "1";
                       lit "https://github.com/user/repo.git";
                       lit "/workspace/repo"];
              cwd := None; capture_output := true; text := true;
              timeout := 300; check := true; shell := false; env := None |} in
  In (Spawn r (Exited 0 (Some []) (Some [])))
     (snd (fst (git_clone_safe scripted_os
                  (lit "https://github.com/user/repo.git")
                  (PurePath.parse (lit "/workspace/repo"))
                  (Some (lit " main ")) 1 300 w)))
  /\ snd (git_clone_safe scripted_os
            (lit "https://github.com/user/repo.git")
            (PurePath.parse (lit "/workspace/repo"))
            (Some (lit " main ")) 1 300 w) = Ok tt.
Proof.
  intros w r.
  set (run := git_clone_safe scripted_os
                (lit "https://github.com/user/repo.git")
                (PurePath.parse (lit "/workspace/repo"))
                (Some (lit " main ")) 1 300 w).
  assert (Hin : In (Spawn r (Exited 0 (Some []) (Some []))) (snd (fst run)))
    by (vm_compute; auto).
  split; [exact Hin|].
  destruct (git_clone_safe_command _ scripted_os
              (lit "https://github.com/user/repo.git")
              (PurePath.parse (lit "/workspace/repo"))
              (Some (lit " main ")) 1 300 w
              (fst (fst run)) (snd (fst run)) (snd run)
              r (Exited 0 (Some []) (Some [])) eq_refl Hin)
    as [_ [_ [u [bargs [_ [_ [_ R]]]]]]].
  apply R. eauto.
Defined.

Lemma run_python_safe_command_witness :
  let w := {| script := []; files := [PurePath.parse (lit "/app/notes.txt")];
              dirs := []; bibs := [] |} in
  fst (run_python_safe scripted_os (PurePath.parse (lit "/app/notes.txt"))
         (Some [lit "--input"; lit "data.json"]) None 60 None w)
  = (w, []).
Proof.
  intros w.
  set (run := run_python_safe scripted_os (PurePath.parse (lit "/app/notes.txt"))
                (Some [lit "--input"; lit "data.json"]) None 60 None w).
  destruct (proj2 (run_python_safe_command _ scripted_os
                     (PurePath.parse (lit "/app/notes.txt"))
                     (Some [lit "--input"; lit "data.json"]) None 60 None w
                     (fst (fst run)) (snd (fst run)) (snd run) eq_refl))
    as [A [B _]].
  - right; vm_compute; discriminate.
  - rewrite (surjective_pairing (fst run)), A, B. reflexivity.
Defined.

(** ** compile_latex_safe: what else the loop guarantees *)

Section Passes.

Variable World : Type.
Variable os : OS World.
Variables tex_file base_name : str.
Variable project_dir : PurePath.t.
Variables timeout runs : Z.

Local Abbreviation preq := (pass_request tex_file project_dir timeout).
Local Abbreviation breq := (bibtex_request base_name project_dir).
Local Abbreviation pass_head := (pass_head tex_file project_dir runs).
Local Abbreviation passes := (latex_passes os tex_file base_name project_dir
                                timeout runs).

Ltac step_pass w :=
  simpl latex_passes; unfold bind; rewrite latex_pass_run; cbv zeta;
  destruct (os_spawn os w preq) as [?w ?o]; simpl fst; simpl snd.

Ltac split_loop todo :=
  match goal with
  | |- context [latex_passes _ _ _ _ _ _ _ ?w1] =>
      destruct (passes todo w1) as [[w2 t2] r2] eqn:P
  end.

Ltac peel_at H pre :=
  repeat match type of H with
    | (_ :: _) = pre ++ _ :: _ =>
        destruct pre as [|? pre]; simpl in H; [|injection H as <- H]
    end.

(** The loop starts nothing but the two fixed commands, and at most one
    typesetting pass per iteration. *)
Lemma latex_passes_spawns (todo : list nat) :
  forall w w' tr res,
    passes todo w = (w', tr, res) ->
    (forall r o, In (Spawn r o) tr -> r = preq \/ r = breq)
    /\ passes_in tex_file tr <= List.length todo.
Proof.
  induction todo as [|i todo IH]; intros w w' tr res E.
  - injection E as _ <- _. split; [contradiction|reflexivity].
  - revert E. step_pass w.
    destruct o as [rc1 out1 err1| |e1];
      [destruct (rc1 =? 0)%Z;
       [destruct i as [|i];
        [destruct (fs_glob_bib (os_fs os w0) project_dir) as [|b bs]|];
        split_loop todo|]| |].
    all: intros E; injection E as <- <- <-.
    all: try (destruct (snd (os_spawn os w0 breq))).
    all: try (destruct (IH _ _ _ _ P) as [S N]).
    all: split;
      [intros r o Hin; simpl in Hin;
       repeat (destruct Hin as [Hin|Hin];
               [try discriminate Hin; injection Hin as <- _; auto|]);
       try contradiction; eauto
      |simpl app;
       rewrite ?passes_in_log, passes_in_pass, ?passes_in_log,
         ?passes_in_bibtex, ?passes_in_log; simpl; lia].
Qed.

(** A loop that returns has run every pass, each with exit code 0. *)
Lemma latex_passes_returned (todo : list nat) :
  forall w w' tr,
    passes todo w = (w', tr, Ok tt) ->
    passes_in tex_file tr = List.length todo
    /\ forall r o, In (Spawn r o) tr -> argv r = pdflatex_command tex_file ->
                   exists out err, o = Exited 0 out err.
Proof.
  induction todo as [|i todo IH]; intros w w' tr E.
  - injection E as _ <-. split; [reflexivity|contradiction].
  - revert E. step_pass w.
    destruct o as [rc1 out1 err1| |e1];
      [destruct (rc1 =? 0)%Z eqn:R;
       [apply Z.eqb_eq in R; subst rc1;
        destruct i as [|i];
        [destruct (fs_glob_bib (os_fs os w0) project_dir) as [|b bs]|];
        split_loop todo|]| |].
    all: intros E; try discriminate E; injection E as <- <- ->.
    all: try (destruct (snd (os_spawn os w0 breq))).
    all: destruct (IH _ _ _ P) as [N S].
    all: split;
      [simpl app;
       rewrite ?passes_in_log, passes_in_pass, ?passes_in_log,
         ?passes_in_bibtex, ?passes_in_log, N; reflexivity
      |intros r o Hin A; simpl in Hin;
       repeat (destruct Hin as [Hin|Hin];
               [try discriminate Hin; injection Hin as <- <-;
                try discriminate A; eauto|]);
       try contradiction; eauto].
Qed.

(** A pass that times out, or whose process cannot be run, ends the
    loop with the error of [execute_command_safe]. *)
Lemma latex_passes_raised_pass (todo : list nat) :
  forall w w' tr res,
    passes todo w = (w', tr, res) ->
    forall pre r o post,
      tr = pre ++ Spawn r o :: post ->
      argv r = pdflatex_command tex_file ->
      match o with
      | Exited _ _ _ => True
      | TimedOut =>
          post = [Log ERROR (CommandTimedOutLog timeout)]
          /\ res = Raise (CommandExecutionError
                            (CommandTimedOut timeout
                               (Shlex.join (pdflatex_command tex_file))))
      | Failed e =>
          post = [Log ERROR (UnexpectedErrorLog e)]
          /\ res = Raise (CommandExecutionError (UnexpectedError e))
      end.
Proof.
  induction todo as [|i todo IH]; intros w w' tr res E pre r o post T A.
  - injection E as _ <- _. destruct pre; discriminate T.
  - destruct o as [rc out err| |e]; [exact I| |].
    all: revert E; step_pass w.
    all: destruct o as [rc1 out1 err1| |e1];
      [destruct (rc1 =? 0)%Z;
       [destruct i as [|i];
        [destruct (fs_glob_bib (os_fs os w0) project_dir) as [|b bs]|];
        split_loop todo|]| |].
    all: intros E; injection E as <- <- <-.
    all: simpl in T.
    all: try (destruct (snd (os_spawn os w0 breq)); simpl in T).
    all: peel_at T pre; try discriminate T.
    all: try (exfalso; inversion T; subst; discriminate A).
    all: try (injection T as _ <- <-; auto; fail).
    all: try (injection T as _ <-; auto; fail).
    all: try (exfalso; destruct pre; discriminate T).
    all: exact (IH _ _ _ _ P _ _ _ _ T A).
Qed.

End Passes.

Section CompileMore.

Variable World : Type.
Variable os : OS World.
Variable tex_file : str.
Variable project_dir : PurePath.t.
Variables timeout runs : Z.

Local Abbreviation base_name := (drop_last4 tex_file).
Local Abbreviation preq := (pass_request tex_file project_dir timeout).
Local Abbreviation breq := (bibtex_request base_name project_dir).
Local Abbreviation pdf_path := (pdf_path_of tex_file project_dir).
Local Abbreviation compile :=
  (compile_latex_safe os tex_file project_dir timeout runs).
Local Abbreviation loop :=
  (latex_passes os tex_file base_name project_dir timeout runs (range runs)).

(** The trace of a compilation is the opening line, the trace of the
    loop, and at most one closing line. *)
Lemma compile_trace (w w' : World) (tr : list event)
    (res : result PurePath.t) :
  inputs_accepted (os_fs os w) tex_file project_dir = true ->
  compile w = (w', tr, res) ->
  exists tl,
    tr = Log INFO (CompilingLatex tex_file runs) :: snd (fst (loop w)) ++ tl
    /\ (tl = [] \/ exists l m, tl = [Log l m]).
Proof.
  intros I E. rewrite (compile_run _ os tex_file project_dir timeout runs w I) in E.
  destruct (loop w) as [[w1 t1] r1]. cbn [fst snd].
  destruct r1 as [[]|e];
    [destruct (fs_exists (os_fs os w1) pdf_path)|];
    injection E as _ <- _.
  - eexists; split; [reflexivity|]. right; eauto.
  - exists []; rewrite app_nil_r; auto.
  - exists []; rewrite app_nil_r; auto.
Qed.

Lemma compile_trace_spawn (w w' : World) (tr : list event)
    (res : result PurePath.t) (r : request) (o : outcome) :
  inputs_accepted (os_fs os w) tex_file project_dir = true ->
  compile w = (w', tr, res) ->
  In (Spawn r o) tr -> In (Spawn r o) (snd (fst (loop w))).
Proof.
  intros I E Hin. destruct (compile_trace w w' tr res I E) as [tl [-> Tl]].
  destruct Hin as [H|H]; [discriminate H|].
  apply in_app_or in H as [H|H]; [exact H|].
  destruct Tl as [->|[l [m ->]]]; simpl in H;
    [contradiction|destruct H as [H|[]]; discriminate H].
Qed.

(** X16: A [tex_file] that holds a path separator is never compiled: the
    call raises [ValueError] before it looks at the file system, so the
    file name cannot be used to reach outside the project directory.
    More generally, when one of the four checks before the loop fails,
    nothing is logged or started and the world is unchanged. *)
Theorem compile_latex_safe_rejects (w : World) :
  (contains (lit "/") tex_file || contains [92%N] tex_file = true ->
   compile w = (w, [], Raise (ValueError (FileMustEndWithTex tex_file)))
   \/ compile w
      = (w, [], Raise (ValueError (TexFileMustBeFilenameOnly tex_file))))
  /\ (inputs_accepted (os_fs os w) tex_file project_dir = false ->
      exists v, compile w = (w, [], Raise (ValueError v))).
Proof.
  split.
  - intros S. unfold compile_latex_safe, raise.
    destruct (endswith (lit ".tex") tex_file); cbn [negb]; [|auto].
    rewrite S. auto.
  - apply compile_rejected.
Qed.

(** X17: Every process a compilation starts is one of two fixed commands
    run in the project directory with the shell off:
    [pdflatex -interaction=nonstopmode -no-shell-escape -halt-on-error
    <tex_file>], at most [runs] times, or [bibtex <base name>]. *)
Theorem compile_latex_safe_commands (w w' : World) (tr : list event)
    (res : result PurePath.t) :
  compile w = (w', tr, res) ->
  (forall r o, In (Spawn r o) tr ->
     (r = preq \/ r = breq)
     /\ shell r = false /\ cwd r = Some project_dir
     /\ (argv r = [lit "pdflatex"; lit "-interaction=nonstopmode";
                   lit "-no-shell-escape"; lit "-halt-on-error"; tex_file]
         \/ argv r = [lit "bibtex"; drop_last4 tex_file]))
  /\ passes_in tex_file tr <= Z.to_nat runs.
Proof.
  intros E.
  destruct (inputs_accepted (os_fs os w) tex_file project_dir) eqn:I.
  2:{ destruct (compile_rejected _ os tex_file project_dir timeout runs w I) as [v V].
      rewrite V in E. injection E as _ <- _.
      split; [contradiction|simpl; lia]. }
  destruct (loop w) as [[w1 t1] r1] eqn:L.
  destruct (latex_passes_spawns _ os _ _ _ _ _ _ _ _ _ _ L) as [S N].
  split.
  - intros r o Hin.
    pose proof (compile_trace_spawn w w' tr res r o I E Hin) as H.
    rewrite L in H. cbn [fst snd] in H.
    destruct (S _ _ H) as [-> | ->]; repeat split; auto.
  - destruct (compile_trace w w' tr res I E) as [tl [-> Tl]].
    rewrite L. cbn [fst snd].
    rewrite passes_in_log, passes_in_app.
    unfold range in N. rewrite length_seq in N.
    destruct Tl as [->|[l [m ->]]]; simpl; lia.
Qed.

(** X18: A compilation that returns a path returns [<base>.pdf] in the
    project directory, that file exists when it returns, and all [runs]
    passes were run and exited with code 0. *)
Theorem compile_latex_safe_returned (w w' : World) (tr : list event)
    (p : PurePath.t) :
  compile w = (w', tr, Ok p) ->
  p = pdf_path
  /\ fs_exists (os_fs os w') p = true
  /\ inputs_accepted (os_fs os w) tex_file project_dir = true
  /\ passes_in tex_file tr = Z.to_nat runs
  /\ forall r o, In (Spawn r o) tr -> argv r = pdflatex_command tex_file ->
                 exists out err, o = Exited 0 out err.
Proof.
  intros E.
  destruct (inputs_accepted (os_fs os w) tex_file project_dir) eqn:I.
  2:{ destruct (compile_rejected _ os tex_file project_dir timeout runs w I) as [v V].
      rewrite V in E. discriminate E. }
  pose proof (compile_trace w w' tr (Ok p) I E) as Tr.
  pose proof (fun r o => compile_trace_spawn w w' tr (Ok p) r o I E) as Sp.
  rewrite (compile_run _ os tex_file project_dir timeout runs w I) in E.
  destruct (loop w) as [[w1 t1] r1] eqn:L. cbn [fst snd] in *.
  destruct r1 as [[]|e]; [|discriminate E].
  destruct (latex_passes_returned _ os _ _ _ _ _ _ _ _ _ L) as [N S].
  destruct (fs_exists (os_fs os w1) pdf_path) eqn:X; [|discriminate E].
  injection E as <- _ <-.
  repeat split; auto.
  - destruct Tr as [tl [-> Tl]].
    rewrite passes_in_log, passes_in_app, N.
    unfold range. rewrite length_seq.
    destruct Tl as [->|[l [m ->]]]; simpl; lia.
  - intros r o Hin. apply S, Sp, Hin.
Qed.

(** X19: A pass that times out, or whose process cannot be run at all, ends
    the compilation like a failed pass does: one error line follows,
    nothing more is started, and the error of [execute_command_safe]
    is what the call raises. *)
Theorem compile_latex_safe_pass_exception (w w' : World) (tr : list event)
    (res : result PurePath.t) (pre post : list event) (r : request)
    (o : outcome) :
  compile w = (w', tr, res) ->
  tr = pre ++ Spawn r o :: post ->
  argv r = pdflatex_command tex_file ->
  (o = TimedOut ->
   post = [Log ERROR (CommandTimedOutLog timeout)]
   /\ res = Raise (CommandExecutionError
                     (CommandTimedOut timeout
                        (Shlex.join (pdflatex_command tex_file)))))
  /\ (forall e, o = Failed e ->
      post = [Log ERROR (UnexpectedErrorLog e)]
      /\ res = Raise (CommandExecutionError (UnexpectedError e))).
Proof.
  intros E T A.
  destruct (inputs_accepted (os_fs os w) tex_file project_dir) eqn:I.
  2:{ destruct (compile_rejected _ os tex_file project_dir timeout runs w I) as [v V].
      rewrite V in E. injection E as _ <- _.
      destruct pre; discriminate T. }
  rewrite (compile_run _ os tex_file project_dir timeout runs w I) in E.
  destruct (loop w) as [[w1 t1] r1] eqn:L.
  pose proof (latex_passes_raised_pass _ os _ _ _ _ _ _ _ _ _ _ L) as R.
  assert (Core : forall post',
            t1 = List.tl pre ++ Spawn r o :: post' ->
            match o with
            | Exited _ _ _ => True
            | TimedOut =>
                post' = [Log ERROR (CommandTimedOutLog timeout)]
                /\ r1 = Raise (CommandExecutionError
                                 (CommandTimedOut timeout
                                    (Shlex.join (pdflatex_command tex_file))))
            | Failed e =>
                post' = [Log ERROR (UnexpectedErrorLog e)]
                /\ r1 = Raise (CommandExecutionError (UnexpectedError e))
            end) by (intros post' T1; exact (R _ _ _ _ T1 A)).
  assert (Done :
    match o with
    | Exited _ _ _ => True
    | TimedOut =>
        post = [Log ERROR (CommandTimedOutLog timeout)]
        /\ res = Raise (CommandExecutionError
                          (CommandTimedOut timeout
                             (Shlex.join (pdflatex_command tex_file))))
    | Failed e =>
        post = [Log ERROR (UnexpectedErrorLog e)]
        /\ res = Raise (CommandExecutionError (UnexpectedError e))
    end).
  { destruct pre as [|x pre];
      [destruct r1 as [[]|e]; [destruct (fs_exists _ _)|];
       injection E as _ <- _; discriminate T|].
    cbn [List.tl] in Core.
    destruct r1 as [[]|e].
    - assert (T1 : exists post', t1 = pre ++ Spawn r o :: post').
      { destruct (fs_exists (os_fs os w1) pdf_path);
          injection E as _ <- _; simpl in T; injection T as _ T.
        - apply spawn_before_last_log in T as [post' [T _]]. eauto.
        - eauto. }
      destruct T1 as [post' T1]. specialize (Core _ T1).
      destruct o as [rc out err| |x0]; [trivial| |];
        destruct Core as [_ X]; discriminate X.
    - injection E as _ <- <-. injection T as _ T.
      specialize (Core _ T).
      destruct o as [rc out err| |x0]; [trivial| |];
        destruct Core as [-> X]; injection X as ->; auto. }
  split.
  - intros ->. exact Done.
  - intros e ->. exact Done.
Qed.

(** X20: With [runs] zero or negative nothing is run: the call only looks
    for the PDF, returns it when one is already there (left by an
    earlier compilation) and raises "PDF file not created" otherwise. *)
Theorem compile_latex_safe_no_runs (w : World) :
  (runs <= 0)%Z ->
  inputs_accepted (os_fs os w) tex_file project_dir = true ->
  compile w =
  if fs_exists (os_fs os w) pdf_path then
    (w, [Log INFO (CompilingLatex tex_file runs);
         Log INFO (CompilationSuccessful (PurePath.to_str pdf_path))],
     Ok pdf_path)
  else
    (w, [Log INFO (CompilingLatex tex_file runs)],
     Raise (CommandExecutionError (PdfNotCreated (PurePath.to_str pdf_path)))).
Proof.
  intros Z0 I. rewrite (compile_run _ os tex_file project_dir timeout runs w I).
  unfold range. replace (Z.to_nat runs) with 0 by lia. simpl.
  reflexivity.
Qed.

End CompileMore.

Lemma compile_latex_safe_rejects_witness :
  let w := example_world [] false false in
  compile_latex_safe scripted_os (lit "../secret/main.tex") example_dir 120 3 w
  = (w, [], Raise (ValueError (FileMustEndWithTex (lit "../secret/main.tex"))))
  \/ compile_latex_safe scripted_os (lit "../secret/main.tex") example_dir
       120 3 w
     = (w, [], Raise (ValueError
                        (TexFileMustBeFilenameOnly (lit "../secret/main.tex")))).
Proof.
  intros w.
  apply (proj1 (compile_latex_safe_rejects _ scripted_os
                  (lit "../secret/main.tex") example_dir 120 3 w)).
  vm_compute; reflexivity.
Defined.

Lemma compile_latex_safe_commands_witness :
  let w := example_world [] true true in
  passes_in (lit "main.tex")
    (snd (fst (compile_latex_safe scripted_os (lit "main.tex") example_dir
                 120 3 w)))
  <= 3.
Proof.
  intros w.
  set (run := compile_latex_safe scripted_os (lit "main.tex") example_dir
                120 3 w).
  exact (proj2 (compile_latex_safe_commands _ scripted_os (lit "main.tex")
                  example_dir 120 3 w (fst (fst run)) (snd (fst run))
                  (snd run) eq_refl)).
Defined.

Lemma compile_latex_safe_returned_witness :
  let w := example_world [] true false in
  passes_in (lit "main.tex")
    (snd (fst (compile_latex_safe scripted_os (lit "main.tex") example_dir
                 120 2 w)))
  = 2.
Proof.
  intros w.
  set (run := compile_latex_safe scripted_os (lit "main.tex") example_dir
                120 2 w).
  exact (proj1 (proj2 (proj2 (proj2
           (compile_latex_safe_returned _ scripted_os (lit "main.tex")
              example_dir 120 2 w (fst (fst run)) (snd (fst run))
              (PurePath.parse (lit "/papers/p/main.pdf")) eq_refl))))).
Defined.

Lemma compile_latex_safe_pass_exception_witness :
  let w := example_world [Exited 0 (Some []) (Some []); TimedOut] false false in
  snd (compile_latex_safe scripted_os (lit "main.tex") example_dir 120 3 w)
  = Raise (CommandExecutionError
             (CommandTimedOut 120
                (Shlex.join (pdflatex_command (lit "main.tex"))))).
Proof.
  intros w.
  set (run := compile_latex_safe scripted_os (lit "main.tex") example_dir
                120 3 w).
  refine (proj2 (proj1 (compile_latex_safe_pass_exception _ scripted_os
                          (lit "main.tex") example_dir 120 3 w
                          (fst (fst run)) (snd (fst run)) (snd run)
                          (firstn 7 (snd (fst run))) (skipn 8 (snd (fst run)))
                          (pass_request (lit "main.tex") example_dir 120)
                          TimedOut _ _ _) eq_refl)).
  - vm_compute; reflexivity.
  - vm_compute; reflexivity.
  - reflexivity.
Defined.

Lemma compile_latex_safe_no_runs_witness :
  let w := example_world [] true false in
  compile_latex_safe scripted_os (lit "main.tex") example_dir 120 0 w
  = (w, [Log INFO (CompilingLatex (lit "main.tex") 0);
         Log INFO (CompilationSuccessful (lit "/papers/p/main.pdf"))],
     Ok (PurePath.parse (lit "/papers/p/main.pdf"))).
Proof.
  intros w.
  rewrite (compile_latex_safe_no_runs _ scripted_os (lit "main.tex")
             example_dir 120 0 w); [|lia|vm_compute; reflexivity].
  vm_compute; reflexivity.
Defined.

(** ** validate_path on a file system without symbolic links *)






Lemma validate_identifier_rejects_metacharacter_witness :
  exists r,
    validate_identifier (lit "vq; rm -rf /") (lit "research_field") 50
      true true false
    = Raise (ValidationError r).
Proof.
  apply (validate_identifier_rejects_metacharacter (lit "vq; rm -rf /")
           (lit "research_field") 50 true true false 59%N).
  - vm_compute; auto.
  - vm_compute; reflexivity.
  - reflexivity.
Defined.

Lemma validate_identifier_all_flags_witness :
  validate_identifier (lit "vq/rotation") (lit "research_field") 50
    true true true
  = Raise (ReError 95%N 47%N).
Proof.
  apply validate_identifier_all_flags.
  - vm_compute; discriminate.
  - vm_compute; discriminate.
Defined.
